(** * brainpy-datasets: cognitive tasks [AntiReach] and [Reaching1D]

    A shallow embedding of
      - [brainpy_datasets/_src/cognitive/utils.py]  ([interval_of]) and
      - [brainpy_datasets/_src/cognitive/others.py] ([AntiReach], [Reaching1D])
    together with the properties of the trials they generate.

    Conventions of the embedding.
      - A Python [int] is a [Z]; a [float] (and a numpy [float64]) is read as
        the real number it denotes, so float arithmetic is exact arithmetic
        on [R]; an array of [dtype=int] holds [Z].
      - A Python exception is a value of [exn]; a computation that may raise
        has type [result A] and is sequenced with [x <- c ;; k].
      - A [dict] literal is the ordered list of its items.
      - The random generator owned by a task is threaded as explicit state.
      - Reading floats as reals is faithful to the values only up to
        rounding, and a count that the code takes from a rounded quotient
        (the steps of a segment, the points of [np.arange]) can differ
        from the exact one.  What is stated of a returned trial therefore
        names its segments through the metadata the trial carries, and
        holds whatever step counts the trial was built with. *)

From Stdlib Require Import Reals ZArith List String Bool Lia Lra.
From Stdlib Require Import Zfloor DecimalString FinFun.
Import ListNotations.

Local Open Scope string_scope.
Local Open Scope list_scope.
Local Open Scope Z_scope.

(** ** Python values and control *)

Module Py.

(** Exceptions: the ones the modelled code raises itself, and [Raised] for
    whatever a user-supplied callable raises. *)
Inductive exn : Type :=
| ValueError (msg : string)
| ZeroDivisionError (msg : string)
| IndexError (msg : string)
| Raised (kind : string) (msg : string).

Definition result (A : Type) : Type := (exn + A)%type.

Definition ret {A : Type} (a : A) : result A := inr a.

Definition raise {A : Type} (e : exn) : result A := inl e.

Definition bind {A B : Type} (c : result A) (k : A -> result B) : result B :=
  match c with
  | inl e => inl e
  | inr a => k a
  end.

(** [slice(start, stop, None)] with integer bounds. *)
Record slice : Type := Slice { start : Z; stop : Z }.

(** [int(x)] for a float [x]: truncation towards zero. *)
Definition py_int (x : R) : Z :=
  if Rle_dec 0 x then Zfloor x else - Zfloor (- x).

(** [x / y] on floats. *)
Definition truediv (x y : R) : result R :=
  if Req_dec_T y 0 then raise (ZeroDivisionError "float division by zero")
  else ret (x / y)%R.

(** [range(n)] *)
Definition range (n : Z) : list Z := map Z.of_nat (seq 0 (Z.to_nat n)).

(** [sum(xs)] on integers. *)
Definition sum (xs : list Z) : Z := fold_left Z.add xs 0.

(** [len(l)] *)
Definition len {A : Type} (l : list A) : Z := Z.of_nat (List.length l).

(** [l[i]] on a sequence, with Python's negative indices. *)
Definition getitem {A : Type} (l : list A) (i : Z) : result A :=
  let j := if i <? 0 then i + len l else i in
  if (j <? 0) || (len l <=? j) then raise (IndexError "index out of bounds")
  else match nth_error l (Z.to_nat j) with
       | Some a => ret a
       | None => raise (IndexError "index out of bounds")
       end.

(** [f'{name}{i}'] *)
Definition fstring (name : string) (i : Z) : string :=
  (name ++ NilZero.string_of_int (Z.to_int i))%string.

(** An optional callable applied to a value: [if f is not None: x = f(x)]. *)
Definition apply_optional {A : Type} (f : option (A -> result A)) (x : A)
  : result A :=
  match f with
  | Some f => f x
  | None => ret x
  end.

End Py.

Import Py.

Notation "x <- c ;; k" := (bind c (fun x => k))
  (at level 61, c at next level, right associativity).

(** ** The part of numpy the tasks use *)

Module Np.

(** A two-dimensional [float] array: its shape and its rows. *)
Record ndarray2 : Type := Array2 { shape0 : Z; shape1 : Z; rows : list (list R) }.

(** A one-dimensional array of [dtype=int]. *)
Definition ndarray1 : Type := list Z.

(** [np.zeros(n, dtype=int)] *)
Definition zeros1 (n : Z) : result ndarray1 :=
  if n <? 0 then raise (ValueError "negative dimensions are not allowed")
  else ret (repeat 0 (Z.to_nat n)).

(** [np.zeros((n, m))] *)
Definition zeros2 (n m : Z) : result ndarray2 :=
  if (n <? 0) || (m <? 0)
  then raise (ValueError "negative dimensions are not allowed")
  else ret (Array2 n m (repeat (repeat 0%R (Z.to_nat m)) (Z.to_nat n))).

(** [np.arange(start, stop, step)] on floats: [ceil((stop - start) / step)]
    values [start + i * step]. *)
Definition arange (start stop step : R) : list R :=
  map (fun i => (start + IZR i * step)%R)
      (range (Zceil ((stop - start) / step))).

(** [np.arange(n)] on an integer. *)
Definition arange_int (n : Z) : list Z := range n.

(** [np.linspace(start, stop, num)] (end point included). *)
Definition linspace (start stop : R) (num : Z) : result (list R) :=
  if num <? 0
  then raise (ValueError (fstring "Number of samples, " num
                          ++ ", must be non-negative.")%string)
  else
    let div := num - 1 in
    let delta := (stop - start)%R in
    ret (map (fun i =>
                if (1 <? num) && (i =? div) then stop
                else if 0 <? div then (start + IZR i * (delta / IZR div))%R
                else (start + IZR i * delta)%R)
             (range num)).

(** [np.mod(a, b)] on floats: the remainder has the sign of [b]. *)
Definition np_mod (a b : R) : R := (a - IZR (Zfloor (a / b)) * b)%R.

(** [np.cos(features - theta)] *)
Definition cos_tuning (features : list R) (theta : R) : list R :=
  map (fun f => cos (f - theta)) features.

(** A slice bound clipped to an axis of [n] elements, as numpy and Python do:
    a negative bound counts from the end. *)
Definition adjust (n i : Z) : Z :=
  if i <? 0 then Z.max 0 (i + n) else Z.min i n.

(** Whether index [i] of an axis of [n] elements lies in the slice. *)
Definition selects (s : slice) (n i : Z) : bool :=
  (adjust n (start s) <=? i) && (i <? adjust n (stop s)).

(** Number of indices the slice selects. *)
Definition slice_len (s : slice) (n : Z) : Z :=
  Z.max 0 (adjust n (stop s) - adjust n (start s)).

(** [enumerate]-style map, counting from [i]. *)
Fixpoint mapi_from {A B : Type} (f : Z -> A -> B) (i : Z) (l : list A)
  : list B :=
  match l with
  | [] => []
  | a :: l' => f i a :: mapi_from f (i + 1) l'
  end.

Definition mapi {A B : Type} (f : Z -> A -> B) (l : list A) : list B :=
  mapi_from f 0 l.

(** [X[s0, s1] += v] for a scalar [v]. *)
Definition iadd_scalar (X : ndarray2) (s0 s1 : slice) (v : R) : ndarray2 :=
  Array2 (shape0 X) (shape1 X)
    (mapi (fun i row =>
             if selects s0 (shape0 X) i
             then mapi (fun j x =>
                          if selects s1 (shape1 X) j then (x + v)%R else x) row
             else row)
          (rows X)).

(** [X[s0, s1] += v] for a one-dimensional [v], broadcast along the rows:
    [v] must have one element per selected column, or a single element. *)
Definition iadd_row (X : ndarray2) (s0 s1 : slice) (v : list R)
  : result ndarray2 :=
  let k := slice_len s1 (shape1 X) in
  let lo := adjust (shape1 X) (start s1) in
  if (len v =? k) || (len v =? 1)
  then ret (Array2 (shape0 X) (shape1 X)
              (mapi (fun i row =>
                       if selects s0 (shape0 X) i
                       then mapi (fun j x =>
                                    if selects s1 (shape1 X) j
                                    then (x + nth (if len v =? 1 then 0%nat
                                                   else Z.to_nat (j - lo))
                                                  v 0)%R
                                    else x) row
                       else row)
                    (rows X)))
  else raise (ValueError "operands could not be broadcast together").

(** [Y[s] = v] on an integer array. *)
Definition setitem1 (Y : ndarray1) (s : slice) (v : Z) : ndarray1 :=
  mapi (fun i y => if selects s (len Y) i then v else y) Y.

(** The value a float takes when stored into an array of [dtype=int]:
    its fractional part is dropped. *)
Definition cast_int (x : R) : Z := py_int x.

(** [Y[i]] and [X[i, j]] for in-range indices, [None] otherwise. *)
Definition at1 (Y : ndarray1) (i : Z) : option Z :=
  if i <? 0 then None else nth_error Y (Z.to_nat i).

Definition at2 (X : ndarray2) (i j : Z) : option R :=
  if (i <? 0) || (j <? 0) then None
  else match nth_error (rows X) (Z.to_nat i) with
       | Some row => nth_error row (Z.to_nat j)
       | None => None
       end.

(** The shape recorded for an array is the shape of its rows. *)
Definition well_shaped (A : ndarray2) : Prop :=
  len (rows A) = shape0 A /\
  Forall (fun row => len row = shape1 A) (rows A).

End Np.

Import Np.

(** ** The random generator of a task ([numpy.random.RandomState])

    The generator is a library object; the tasks rely on two of its methods
    and on the ranges these draw from. *)
Class RandomState (G : Type) : Type := {
  rng_choice : G -> list Z -> Z * G;
  rng_uniform : G -> R -> R -> R * G;
  rng_choice_In : forall g a, a <> [] -> In (fst (rng_choice g a)) a;
  rng_uniform_range : forall g lo hi,
    (lo < hi)%R -> (lo <= fst (rng_uniform g lo hi) < hi)%R
}.

(** [rng.choice(a)]: an empty [a] is rejected. *)
Definition choice {G : Type} `{RandomState G} (rng : G) (a : list Z)
  : result (Z * G) :=
  match a with
  | [] => raise (ValueError
                  "'a' cannot be empty unless no samples are taken")
  | _ => ret (rng_choice rng a)
  end.

(** ** [utils.py] *)

(** A layout is what [interval_of] accepts as [total]: a [dict] from names to
    lengths, or a sequence of (name, length) tuples. *)
Inductive layout : Type :=
| Dict (d : list (string * Z))
| Seq (l : list (string * Z)).

(** [tuple(total.items())] for a dict, the sequence itself otherwise. *)
Definition items (total : layout) : list (string * Z) :=
  match total with
  | Dict d => d
  | Seq l => l
  end.

(** [total.values()] *)
Definition values (total : layout) : list Z := map snd (items total).

(** The [for k, v in total: ... else: raise] loop of [interval_of], with the
    running offset [s]. *)
Fixpoint interval_loop (elem : string) (s : Z) (total : list (string * Z))
  : result slice :=
  match total with
  | [] => raise (ValueError "Not found")
  | (k, v) :: rest =>
      if String.eqb k elem then ret (Slice s (s + v))
      else interval_loop elem (s + v) rest
  end.

(** [interval_of(elem, total)].  [bp.check.is_sequence(total, elem_type=tuple)]
    accepts every sequence of tuples, which is what [items] yields. *)
Definition interval_of (elem : string) (total : layout) : result slice :=
  let total := items total in
  interval_loop elem 0 total.

(** Sum of the declared lengths of a run of entries. *)
Definition lengths_sum (l : list (string * Z)) : Z :=
  fold_right Z.add 0 (map snd l).

(** ** [others.py] *)

(** Axis metadata: [dict(ax0=dim0, ax1=dim1)]. *)
Definition axes : Type := list (string * list (string * Z)).

(** What [sample_a_trial] returns: [[X, axes of X], [Y, axes of Y]]. *)
Record trial : Type := Trial {
  X : ndarray2;
  X_axes : axes;
  Y : ndarray1;
  Y_axes : axes
}.

(** *** [AntiReach] *)

Module AntiReach.

(** The attributes of an [AntiReach] object that [sample_a_trial] reads.
    [dt] and the two transforms are stored by the base class. *)
Record task : Type := {
  dt : R;
  input_transform : option (ndarray2 -> result ndarray2);
  target_transform : option (ndarray1 -> result ndarray1);
  num_choice : Z;
  _features : list R;
  _choices : list Z;
  _feature_periods : layout;
  anti : bool;
  output_features : list string;
  input_features : list string
}.

(** Modelled from the spec: [initialize] of [_src/utils/others.py], the
    "time duration resolver", is missing; given a possibly distributional
    duration it returns one concrete draw.  A [realized] record holds the
    four numbers it returns during one call of [sample_a_trial]. *)
Record realized : Type := {
  fixation : R;
  stimulus : R;
  delay : R;
  decision : R
}.

(** [AntiReach.__init__] *)
Definition init (dt : R) (anti : bool) (num_choice : Z)
    (input_transform : option (ndarray2 -> result ndarray2))
    (target_transform : option (ndarray1 -> result ndarray1)) : result task :=
  step <- truediv (2 * PI) (IZR num_choice) ;;
  ret {| dt := dt;
         input_transform := input_transform;
         target_transform := target_transform;
         num_choice := num_choice;
         _features := arange 0 (2 * PI) step;
         _choices := arange_int num_choice;
         _feature_periods := Dict [("fixation", 1); ("choice", num_choice)];
         anti := anti;
         output_features :=
           "fixation" :: map (fstring "choice ") (range num_choice);
         input_features :=
           "fixation" :: map (fstring "stimulus ") (range num_choice) |}.

(** The angle shown to the agent: opposite to the feature of [ground_truth]
    in the anti task, that feature itself in the pro task. *)
Definition stim_theta (self : task) (ground_truth : Z) : result R :=
  f <- getitem (_features self) ground_truth ;;
  if anti self then ret (np_mod (f + PI) (2 * PI)) else ret f.

(** [AntiReach.sample_a_trial]; returns the trial and the generator after
    the draw. *)
Definition sample_a_trial {G : Type} `{RandomState G}
    (self : task) (t : realized) (rng : G) (item : Z) : result (trial * G) :=
  q_fixation <- truediv (fixation t) (dt self) ;;
  let n_fixation := py_int q_fixation in
  q_stimulus <- truediv (stimulus t) (dt self) ;;
  let n_stimulus := py_int q_stimulus in
  q_delay <- truediv (delay t) (dt self) ;;
  let n_delay := py_int q_delay in
  q_decision <- truediv (decision t) (dt self) ;;
  let n_decision := py_int q_decision in
  let _time_periods := Dict [("fixation", n_fixation);
                             ("stimulus", n_stimulus);
                             ("delay", n_delay);
                             ("decision", n_decision)] in
  let n_total := sum (values _time_periods) in
  X0 <- zeros2 n_total (num_choice self + 1) ;;
  Y0 <- zeros1 n_total ;;
  drawn <- choice rng (_choices self) ;;
  let ground_truth := fst drawn in
  let rng := snd drawn in
  theta <- stim_theta self ground_truth ;;
  ax0_fixation <- interval_of "fixation" _time_periods ;;
  ax0_stimulus <- interval_of "stimulus" _time_periods ;;
  ax0_delay <- interval_of "delay" _time_periods ;;
  ax1_fixation <- interval_of "fixation" (_feature_periods self) ;;
  ax1_choice <- interval_of "choice" (_feature_periods self) ;;
  let X1 := iadd_scalar X0 ax0_fixation ax1_fixation 1 in
  let X2 := iadd_scalar X1 ax0_stimulus ax1_fixation 1 in
  let X3 := iadd_scalar X2 ax0_delay ax1_fixation 1 in
  let stim := cos_tuning (_features self) theta in
  X4 <- iadd_row X3 ax0_stimulus ax1_choice stim ;;
  ax0_decision <- interval_of "decision" _time_periods ;;
  let Y1 := setitem1 Y0 ax0_decision (ground_truth + 1) in
  X5 <- apply_optional (input_transform self) X4 ;;
  Y2 <- apply_optional (target_transform self) Y1 ;;
  let dim0 := items _time_periods in
  let dim1 := [("fixation", 1); ("stimulus", num_choice self)] in
  ret (Trial X5 [("ax0", dim0); ("ax1", dim1)] Y2 [("ax0", dim0)], rng).

(** The same task with other transforms. *)
Definition with_transforms (self : task)
    (input_transform : option (ndarray2 -> result ndarray2))
    (target_transform : option (ndarray1 -> result ndarray1)) : task :=
  {| dt := dt self;
     input_transform := input_transform;
     target_transform := target_transform;
     num_choice := num_choice self;
     _features := _features self;
     _choices := _choices self;
     _feature_periods := _feature_periods self;
     anti := anti self;
     output_features := output_features self;
     input_features := input_features self |}.

(** Number of steps a realized duration [d] lasts. *)
Definition steps (self : task) (d : R) : Z := py_int (d / dt self).

(** Total number of steps of a trial. *)
Definition n_total (self : task) (t : realized) : Z :=
  steps self (fixation t) + steps self (stimulus t) +
  steps self (delay t) + steps self (decision t).

(** The [k]-th of [n] equally spaced angles, as [np.arange] yields it. *)
Definition feature (n k : Z) : R := (0 + IZR k * (2 * PI / IZR n))%R.

(** The stimulus angle for a feature angle [f]. *)
Definition angle (anti : bool) (f : R) : R :=
  if anti then np_mod (f + PI) (2 * PI) else f.

End AntiReach.

(** *** [Reaching1D] *)

Module Reaching1D.

(** The attributes of a [Reaching1D] object that [sample_a_trial] reads.
    The two durations are divided by [dt] as they are, so they are numbers. *)
Record task : Type := {
  dt : R;
  input_transform : option (ndarray2 -> result ndarray2);
  target_transform : option (ndarray1 -> result ndarray1);
  t_fixation : R;
  t_reach : R;
  num_choice : Z;
  _features : list R;
  _feature_periods : layout;
  output_features : list string;
  input_features : list string
}.

(** [Reaching1D.__init__] *)
Definition init (dt t_fixation t_reach : R) (num_choice : Z)
    (input_transform : option (ndarray2 -> result ndarray2))
    (target_transform : option (ndarray1 -> result ndarray1)) : result task :=
  grid <- linspace 0 (2 * PI) (num_choice + 1) ;;
  ret {| dt := dt;
         input_transform := input_transform;
         target_transform := target_transform;
         t_fixation := t_fixation;
         t_reach := t_reach;
         num_choice := num_choice;
         _features := removelast grid;
         _feature_periods := Dict [("target", num_choice); ("self", num_choice)];
         output_features := ["fixation"; "left"; "right"];
         input_features :=
           map (fstring "target") (range num_choice) ++
           map (fstring "self") (range num_choice) |}.

(** [Reaching1D.sample_a_trial]; returns the trial and the generator after
    the draw. *)
Definition sample_a_trial {G : Type} `{RandomState G}
    (self : task) (rng : G) (item : Z) : result (trial * G) :=
  q_fixation <- truediv (t_fixation self) (dt self) ;;
  let n_fixation := py_int q_fixation in
  q_reach <- truediv (t_reach self) (dt self) ;;
  let n_reach := py_int q_reach in
  let _time_periods := Dict [("fixation", n_fixation); ("reach", n_reach)] in
  let n_total := sum (values _time_periods) in
  X0 <- zeros2 n_total (len (input_features self)) ;;
  Y0 <- zeros1 n_total ;;
  let drawn := rng_uniform rng 0 (PI * 2) in
  let ground_truth := fst drawn in
  let rng := snd drawn in
  ax0_fixation <- interval_of "fixation" _time_periods ;;
  ax0_reach <- interval_of "reach" _time_periods ;;
  ax1_target <- interval_of "target" (_feature_periods self) ;;
  let target := cos_tuning (_features self) ground_truth in
  X1 <- iadd_row X0 ax0_reach ax1_target target ;;
  let Y1 := setitem1 Y0 ax0_fixation (cast_int PI) in
  let Y2 := setitem1 Y1 ax0_reach (cast_int ground_truth) in
  X2 <- apply_optional (input_transform self) X1 ;;
  Y3 <- apply_optional (target_transform self) Y2 ;;
  let dim0 := items _time_periods in
  let dim1 := [("target", num_choice self); ("self", num_choice self)] in
  ret (Trial X2 [("ax0", dim0); ("ax1", dim1)] Y3 [("ax0", dim0)], rng).

(** The same task with other transforms. *)
Definition with_transforms (self : task)
    (input_transform : option (ndarray2 -> result ndarray2))
    (target_transform : option (ndarray1 -> result ndarray1)) : task :=
  {| dt := dt self;
     input_transform := input_transform;
     target_transform := target_transform;
     t_fixation := t_fixation self;
     t_reach := t_reach self;
     num_choice := num_choice self;
     _features := _features self;
     _feature_periods := _feature_periods self;
     output_features := output_features self;
     input_features := input_features self |}.

(** Number of steps a duration [d] lasts. *)
Definition steps (self : task) (d : R) : Z := py_int (d / dt self).

(** Total number of steps of a trial. *)
Definition n_total (self : task) : Z :=
  steps self (t_fixation self) + steps self (t_reach self).

(** The [k]-th of [n] equally spaced angles, as [np.linspace] yields it. *)
Definition feature (n k : Z) : R := (0 + IZR k * ((2 * PI - 0) / IZR n))%R.

End Reaching1D.

(** ** A concrete generator

    A counter whose draws cycle through the candidates; it serves to run the
    tasks on concrete inputs. *)

Definition counter_choice (g : nat) (a : list Z) : Z * nat :=
  (nth (g mod List.length a) a 0, S g).

Definition counter_uniform (g : nat) (lo hi : R) : R * nat :=
  ((lo + (hi - lo) * (INR (g mod 4) / 4))%R, S g).

#[export] Instance counter_rng : RandomState nat.
Proof.
  refine {| rng_choice := counter_choice; rng_uniform := counter_uniform |}.
  - intros g a Ha. unfold counter_choice, fst. apply nth_In.
    apply Nat.mod_upper_bound. destruct a; [congruence | discriminate].
  - intros g lo hi Hlt. unfold counter_uniform, fst.
    assert (Hm : (g mod 4 < 4)%nat) by (apply Nat.mod_upper_bound; discriminate).
    assert (H0 : (0 <= INR (g mod 4))%R) by apply pos_INR.
    assert (H4 : (INR (g mod 4) < 4)%R).
    { replace 4%R with (INR 4) by (simpl; lra). now apply lt_INR. }
    assert (Hu : (0 <= INR (g mod 4) / 4 < 1)%R) by (split; lra).
    destruct Hu as [Hu0 Hu1]. revert Hu0 Hu1.
    generalize (INR (g mod 4) / 4)%R. intros u Hu0 Hu1.
    assert (Hp : (0 <= (hi - lo) * u)%R) by (apply Rmult_le_pos; lra).
    assert (Hq : ((hi - lo) * u < (hi - lo) * 1)%R)
      by (apply Rmult_lt_compat_l; lra).
    split; lra.
Defined.

(** ** Example configurations *)

(** The durations of the example of the specification, once realized. *)
Definition example_durations : AntiReach.realized :=
  {| AntiReach.fixation := 500;
     AntiReach.stimulus := 500;
     AntiReach.delay := 0;
     AntiReach.decision := 500 |}.

(** The task [AntiReach(dt=100, anti=True, num_choice=4)] of the example, as
    [AntiReach.init] builds it. *)
Definition antireach_example : AntiReach.task :=
  {| AntiReach.dt := 100;
     AntiReach.input_transform := None;
     AntiReach.target_transform := None;
     AntiReach.num_choice := 4;
     AntiReach._features := arange 0 (2 * PI) (2 * PI / 4);
     AntiReach._choices := arange_int 4;
     AntiReach._feature_periods := Dict [("fixation", 1); ("choice", 4)];
     AntiReach.anti := true;
     AntiReach.output_features :=
       "fixation" :: map (fstring "choice ") (range 4);
     AntiReach.input_features :=
       "fixation" :: map (fstring "stimulus ") (range 4) |}.

(** The task [Reaching1D(dt=100, t_fixation=500, t_reach=500, num_choice=2)]
    of the example, as [Reaching1D.init] builds it. *)
Definition reaching_example : Reaching1D.task :=
  {| Reaching1D.dt := 100;
     Reaching1D.input_transform := None;
     Reaching1D.target_transform := None;
     Reaching1D.t_fixation := 500;
     Reaching1D.t_reach := 500;
     Reaching1D.num_choice := 2;
     Reaching1D._features := map (Reaching1D.feature 2) (range 2);
     Reaching1D._feature_periods := Dict [("target", 2); ("self", 2)];
     Reaching1D.output_features := ["fixation"; "left"; "right"];
     Reaching1D.input_features :=
       map (fstring "target") (range 2) ++ map (fstring "self") (range 2) |}.

(** A user-supplied transform that raises [e] whatever it is given. *)
Definition failing_transform {A : Type} (e : exn) : A -> result A :=
  fun _ => raise e.

(** ** Notions used to state further properties *)

(** A slice moved [d] places to the right. *)
Definition shift_slice (d : Z) (s : slice) : slice :=
  Slice (start s + d) (stop s + d).

(** No entry of the layout declares a negative length. *)
Definition nonneg_lengths (l : list (string * Z)) : Prop :=
  Forall (fun kv => 0 <= snd kv) l.

(** What a call returns without the generator: the trial, or the exception. *)
Definition outcome_trial {G : Type} (r : result (trial * G)) : result trial :=
  p <- r ;; ret (fst p).


(** ** Properties of [interval_of] *)

Lemma interval_loop_app (elem : string) (pre : list (string * Z)) :
  forall (s : Z) (rest : list (string * Z)),
    ~ In elem (map fst pre) ->
    interval_loop elem s (pre ++ rest) =
    interval_loop elem (s + lengths_sum pre) rest.
Proof.
  induction pre as [| [k v] pre IH]; intros s rest Hnot; simpl.
  - unfold lengths_sum; simpl. now rewrite Z.add_0_r.
  - simpl in Hnot.
    destruct (String.eqb_spec k elem) as [-> | Hne].
    + exfalso. apply Hnot. now left.
    + rewrite IH by (intro Hin; apply Hnot; now right).
      unfold lengths_sum; simpl. f_equal. lia.
Qed.

Lemma first_occurrence (elem : string) (l : list (string * Z)) :
  In elem (map fst l) ->
  exists pre v post,
    l = pre ++ (elem, v) :: post /\ ~ In elem (map fst pre).
Proof.
  induction l as [| [k v] l IH]; simpl; intros Hin.
  - contradiction.
  - destruct (string_dec k elem) as [-> | Hne].
    + exists [], v, l. split; [reflexivity | intros []].
    + destruct Hin as [Heq | Hin]; [contradiction |].
      destruct (IH Hin) as (pre & v' & post & -> & Hpre).
      exists ((k, v) :: pre), v', post. split; [reflexivity |].
      simpl. intros [Heq | Hin']; [contradiction | now apply Hpre].
Qed.

(** C1. For a layout (a dict or a sequence of pairs) in which [name] occurs,
    [interval_of] returns the half-open range [[offset, offset + length)],
    where [width] is the length declared by the first entry called [name]
    and [offset] the sum of the lengths of the entries before it; later
    entries of the same name do not matter. *)
Theorem interval_of_first_match (name : string) (total : layout) :
  In name (map fst (items total)) ->
  exists pre width post,
    items total = pre ++ (name, width) :: post /\
    ~ In name (map fst pre) /\
    interval_of name total =
    ret (Slice (lengths_sum pre) (lengths_sum pre + width)).
Proof.
  intros Hin.
  destruct (first_occurrence name (items total) Hin)
    as (pre & v & post & Heq & Hpre).
  exists pre, v, post. repeat split; try assumption.
  unfold interval_of. rewrite Heq, interval_loop_app by assumption.
  simpl. now rewrite String.eqb_refl.
Qed.

Lemma interval_of_first_match_witness :
  exists pre width post,
    items (Seq [("a", 2); ("b", 3); ("b", 7)]) =
      pre ++ ("b", width) :: post /\
    ~ In "b" (map fst pre) /\
    interval_of "b" (Seq [("a", 2); ("b", 3); ("b", 7)]) =
    ret (Slice (lengths_sum pre) (lengths_sum pre + width)).
Proof.
  apply (interval_of_first_match "b" (Seq [("a", 2); ("b", 3); ("b", 7)])).
  simpl. right. left. reflexivity.
Defined.

(** C2. When no entry of the layout is called [name], [interval_of] raises
    [ValueError('Not found')]. *)
Theorem interval_of_absent (name : string) (total : layout) :
  ~ In name (map fst (items total)) ->
  interval_of name total = raise (ValueError "Not found").
Proof.
  intros Hnot. unfold interval_of.
  rewrite <- (app_nil_r (items total)).
  now rewrite interval_loop_app.
Qed.

Lemma interval_of_absent_witness :
  interval_of "reach" (Dict [("fixation", 5); ("stimulus", 5)]) =
  raise (ValueError "Not found").
Proof.
  apply interval_of_absent. simpl.
  intros [H | [H | []]]; discriminate H.
Defined.

(** ** Auxiliary facts: integer parts, slices and array updates *)

Lemma py_int_IZR (z : Z) : py_int (IZR z) = z.
Proof.
  unfold py_int. destruct (Rle_dec 0 (IZR z)).
  - apply ZfloorZ.
  - rewrite ZfloorNZ. lia.
Qed.

Lemma py_int_nonneg (x : R) : (0 <= x)%R -> 0 <= py_int x.
Proof.
  intros Hx. unfold py_int. destruct (Rle_dec 0 x); [| contradiction].
  apply Zfloor_lub. exact Hx.
Qed.

Lemma steps_nonneg (d dt : R) : (0 <= d)%R -> (0 < dt)%R -> 0 <= py_int (d / dt).
Proof.
  intros Hd Hdt. apply py_int_nonneg.
  apply Rmult_le_pos; [exact Hd |].
  left. now apply Rinv_0_lt_compat.
Qed.

Lemma truediv_ok (x y : R) : y <> 0%R -> truediv x y = ret (x / y)%R.
Proof.
  intros Hy. unfold truediv. destruct (Req_dec_T y 0); [contradiction | reflexivity].
Qed.

Lemma length_range (n : Z) : List.length (range n) = Z.to_nat n.
Proof. unfold range. now rewrite length_map, length_seq. Qed.

Lemma nth_error_range (n : Z) (k : nat) :
  (k < Z.to_nat n)%nat -> nth_error (range n) k = Some (Z.of_nat k).
Proof.
  intros Hk. unfold range.
  rewrite nth_error_map, nth_error_seq.
  destruct (Nat.ltb_spec k (Z.to_nat n)); [reflexivity | lia].
Qed.

Lemma In_range (n i : Z) : In i (range n) <-> 0 <= i < n.
Proof.
  unfold range. rewrite in_map_iff. split.
  - intros (k & <- & Hk). apply in_seq in Hk. lia.
  - intros Hi. exists (Z.to_nat i). split; [lia |]. apply in_seq. lia.
Qed.

Lemma length_mapi_from {A B : Type} (f : Z -> A -> B) (l : list A) :
  forall i, List.length (mapi_from f i l) = List.length l.
Proof.
  induction l as [| a l IH]; intros i; simpl; [reflexivity |].
  now rewrite IH.
Qed.

Lemma nth_error_mapi_from {A B : Type} (f : Z -> A -> B) (l : list A) :
  forall (i : Z) (k : nat),
    nth_error (mapi_from f i l) k =
    option_map (f (i + Z.of_nat k)) (nth_error l k).
Proof.
  induction l as [| a l IH]; intros i k.
  - destruct k; reflexivity.
  - destruct k as [| k]; simpl.
    + now rewrite Z.add_0_r.
    + rewrite IH. do 2 f_equal. lia.
Qed.

Lemma nth_error_mapi {A B : Type} (f : Z -> A -> B) (l : list A) (i : Z) :
  0 <= i ->
  nth_error (mapi f l) (Z.to_nat i) = option_map (f i) (nth_error l (Z.to_nat i)).
Proof.
  intros Hi. unfold mapi. rewrite nth_error_mapi_from.
  now rewrite Z.add_0_l, Z2Nat.id.
Qed.

Lemma selects_range (a b n i : Z) :
  0 <= a -> a <= b -> b <= n ->
  selects (Slice a b) n i = (a <=? i) && (i <? b).
Proof.
  intros Ha Hab Hb. unfold selects, adjust; simpl.
  destruct (Z.ltb_spec a 0); [lia |].
  destruct (Z.ltb_spec b 0); [lia |].
  now rewrite !Z.min_l by lia.
Qed.

Lemma slice_len_range (a b n : Z) :
  0 <= a -> a <= b -> b <= n -> slice_len (Slice a b) n = b - a.
Proof.
  intros Ha Hab Hb. unfold slice_len, adjust; simpl.
  destruct (Z.ltb_spec a 0); [lia |].
  destruct (Z.ltb_spec b 0); [lia |].
  rewrite !Z.min_l by lia. lia.
Qed.

Lemma selects_true_range (a b n i : Z) :
  0 <= a -> a <= b -> b <= n ->
  selects (Slice a b) n i = true -> a <= i < b.
Proof.
  intros Ha Hab Hb Hsel. rewrite selects_range in Hsel by assumption.
  apply andb_prop in Hsel. destruct Hsel as [H1 H2].
  apply Z.leb_le in H1. apply Z.ltb_lt in H2. lia.
Qed.

Lemma shape_of_iadd_row (A A' : ndarray2) (s0 s1 : slice) (v : list R) :
  iadd_row A s0 s1 v = ret A' ->
  shape0 A' = shape0 A /\ shape1 A' = shape1 A.
Proof.
  unfold iadd_row.
  destruct ((len v =? slice_len s1 (shape1 A)) || (len v =? 1));
    [| discriminate].
  intros Heq. injection Heq as <-. split; reflexivity.
Qed.

Lemma py_int_multiple (k : Z) (y : R) :
  y <> 0%R -> py_int (IZR k * y / y) = k.
Proof.
  intros Hy. replace (IZR k * y / y)%R with (IZR k) by (field; exact Hy).
  apply py_int_IZR.
Qed.



Lemma at1_zeros (n i : Z) :
  0 <= i < n -> at1 (repeat 0 (Z.to_nat n)) i = Some 0.
Proof.
  intros Hi. unfold at1. destruct (Z.ltb_spec i 0); [lia |].
  apply nth_error_repeat. lia.
Qed.

Lemma at1_setitem1 (Y : ndarray1) (s : slice) (v i : Z) :
  at1 (setitem1 Y s v) i =
  option_map (fun y => if selects s (len Y) i then v else y) (at1 Y i).
Proof.
  unfold at1. destruct (Z.ltb_spec i 0); [reflexivity |].
  unfold setitem1. now rewrite nth_error_mapi.
Qed.

Lemma len_setitem1 (Y : ndarray1) (s : slice) (v : Z) :
  len (setitem1 Y s v) = len Y.
Proof. unfold len, setitem1, mapi. now rewrite length_mapi_from. Qed.

Lemma len_repeat {A : Type} (a : A) (n : Z) :
  0 <= n -> len (repeat a (Z.to_nat n)) = n.
Proof. intros Hn. unfold len. rewrite repeat_length. lia. Qed.

Lemma at2_zeros (n m i j : Z) :
  0 <= i < n -> 0 <= j < m ->
  at2 (Array2 n m (repeat (repeat 0%R (Z.to_nat m)) (Z.to_nat n))) i j
  = Some 0%R.
Proof.
  intros Hi Hj. unfold at2; simpl.
  destruct (Z.ltb_spec i 0); [lia |].
  destruct (Z.ltb_spec j 0); [lia |]. simpl.
  rewrite nth_error_repeat by lia.
  apply nth_error_repeat. lia.
Qed.

Lemma at2_iadd_scalar (A : ndarray2) (s0 s1 : slice) (v : R) (i j : Z) :
  at2 (iadd_scalar A s0 s1 v) i j =
  option_map (fun x => if selects s0 (shape0 A) i && selects s1 (shape1 A) j
                       then (x + v)%R else x)
             (at2 A i j).
Proof.
  unfold at2.
  destruct (Z.ltb_spec i 0); [reflexivity |].
  destruct (Z.ltb_spec j 0); [reflexivity |]. simpl.
  rewrite nth_error_mapi by assumption.
  destruct (nth_error (rows A) (Z.to_nat i)) as [row |]; simpl; [| reflexivity].
  destruct (selects s0 (shape0 A) i); simpl.
  - rewrite nth_error_mapi by assumption. reflexivity.
  - now destruct (nth_error row (Z.to_nat j)).
Qed.

Lemma at2_iadd_row (A A' : ndarray2) (s0 s1 : slice) (v : list R) (i j : Z) :
  iadd_row A s0 s1 v = ret A' ->
  at2 A' i j =
  option_map (fun x => if selects s0 (shape0 A) i && selects s1 (shape1 A) j
                       then (x + nth (if len v =? 1 then 0%nat
                                      else Z.to_nat
                                             (j - adjust (shape1 A) (start s1)))
                                     v 0)%R
                       else x)
             (at2 A i j).
Proof.
  unfold iadd_row.
  destruct ((len v =? slice_len s1 (shape1 A)) || (len v =? 1));
    [| discriminate].
  intros Heq. injection Heq as <-.
  unfold at2.
  destruct (Z.ltb_spec i 0); [reflexivity |].
  destruct (Z.ltb_spec j 0); [reflexivity |]. simpl.
  rewrite nth_error_mapi by assumption.
  destruct (nth_error (rows A) (Z.to_nat i)) as [row |]; simpl; [| reflexivity].
  destruct (selects s0 (shape0 A) i); simpl.
  - rewrite nth_error_mapi by assumption. reflexivity.
  - now destruct (nth_error row (Z.to_nat j)).
Qed.


Lemma Zceil_IZR (z : Z) : Zceil (IZR z) = z.
Proof. unfold Zceil. rewrite ZfloorNZ. lia. Qed.

Lemma zeros1_ok (n : Z) : 0 <= n -> zeros1 n = ret (repeat 0 (Z.to_nat n)).
Proof.
  intros Hn. unfold zeros1. destruct (Z.ltb_spec n 0); [lia | reflexivity].
Qed.

Lemma zeros2_ok (n m : Z) :
  0 <= n -> 0 <= m ->
  zeros2 n m = ret (Array2 n m (repeat (repeat 0%R (Z.to_nat m)) (Z.to_nat n))).
Proof.
  intros Hn Hm. unfold zeros2.
  destruct (Z.ltb_spec n 0); [lia |].
  destruct (Z.ltb_spec m 0); [lia | reflexivity].
Qed.

Lemma range_nonempty (n : Z) : 0 < n -> range n <> [].
Proof.
  intros Hn Heq. apply (f_equal (@List.length Z)) in Heq.
  rewrite length_range in Heq. simpl in Heq. lia.
Qed.

Lemma choice_ok {G : Type} `{RandomState G} (rng : G) (a : list Z) :
  a <> [] -> choice rng a = ret (rng_choice rng a).
Proof. intros Ha. destruct a; [congruence | reflexivity]. Qed.

Lemma getitem_map_range {A : Type} (f : Z -> A) (n k : Z) :
  0 <= k < n -> getitem (map f (range n)) k = ret (f k).
Proof.
  intros Hk. unfold getitem, len. rewrite length_map, length_range.
  destruct (Z.ltb_spec k 0); [lia |].
  destruct (Z.ltb_spec k 0); [lia |].
  destruct (Z.leb_spec (Z.of_nat (Z.to_nat n)) k); [lia |]. simpl.
  rewrite nth_error_map, nth_error_range by lia. simpl.
  now rewrite Z2Nat.id by lia.
Qed.

Lemma nth_map_range {A : Type} (f : Z -> A) (n k : Z) (d : A) :
  0 <= k < n -> nth (Z.to_nat k) (map f (range n)) d = f k.
Proof.
  intros Hk. apply nth_error_nth.
  rewrite nth_error_map, nth_error_range by lia. simpl.
  now rewrite Z2Nat.id by lia.
Qed.

Lemma iadd_row_ok (A : ndarray2) (s0 s1 : slice) (v : list R) :
  len v = slice_len s1 (shape1 A) ->
  exists A', iadd_row A s0 s1 v = ret A'.
Proof.
  intros Hv. unfold iadd_row. rewrite Hv, Z.eqb_refl. simpl. eauto.
Qed.

(** ** The feature angles *)

Lemma arange_circle (n : Z) :
  0 < n ->
  arange 0 (2 * PI) (2 * PI / IZR n) =
  map (fun i => (0 + IZR i * (2 * PI / IZR n))%R) (range n).
Proof.
  intros Hn. unfold arange.
  assert (Hz : IZR n <> 0%R) by (apply not_0_IZR; lia).
  replace ((2 * PI - 0) / (2 * PI / IZR n))%R with (IZR n)
    by (field; split; [exact Hz | apply PI_neq0]).
  now rewrite Zceil_IZR.
Qed.

Lemma AntiReach_init_ok (dt : R) (anti : bool) (n : Z)
    (it : option (ndarray2 -> result ndarray2))
    (tt : option (ndarray1 -> result ndarray1)) :
  n <> 0 ->
  AntiReach.init dt anti n it tt =
  ret {| AntiReach.dt := dt;
         AntiReach.input_transform := it;
         AntiReach.target_transform := tt;
         AntiReach.num_choice := n;
         AntiReach._features := arange 0 (2 * PI) (2 * PI / IZR n);
         AntiReach._choices := arange_int n;
         AntiReach._feature_periods := Dict [("fixation", 1); ("choice", n)];
         AntiReach.anti := anti;
         AntiReach.output_features :=
           "fixation" :: map (fstring "choice ") (range n);
         AntiReach.input_features :=
           "fixation" :: map (fstring "stimulus ") (range n) |}.
Proof.
  intros Hn. unfold AntiReach.init.
  rewrite truediv_ok by (apply not_0_IZR; exact Hn). reflexivity.
Qed.

(** Case analysis on the integer comparisons of the goal. *)
Ltac cmp_cases :=
  repeat match goal with
    | |- context [Z.leb ?a ?b] =>
        destruct (Z.leb_spec a b); try (exfalso; lia)
    | |- context [Z.ltb ?a ?b] =>
        destruct (Z.ltb_spec a b); try (exfalso; lia)
    | |- context [Z.eqb ?a ?b] =>
        destruct (Z.eqb_spec a b); try (exfalso; lia)
    end.

(** ** [AntiReach]: the trial in closed form *)

Section AntiReachTrial.

Context {G : Type} `{RandomState G}.

(** With a step size other than zero, a positive number of choices and a
    total number of steps that is not negative, [sample_a_trial] raises
    nothing of its own: it builds [X4] and the labels, and hands them to the
    transforms. *)
Lemma AntiReach_sample_eq (dt : R) (anti : bool) (n : Z)
    (it : option (ndarray2 -> result ndarray2))
    (tt : option (ndarray1 -> result ndarray1))
    (self : AntiReach.task) (t : AntiReach.realized) (rng : G) (item : Z) :
  AntiReach.init dt anti n it tt = ret self ->
  0 < n -> dt <> 0%R ->
  0 <= AntiReach.n_total self t ->
  let nf := AntiReach.steps self (AntiReach.fixation t) in
  let ns := AntiReach.steps self (AntiReach.stimulus t) in
  let nd := AntiReach.steps self (AntiReach.delay t) in
  let ne := AntiReach.steps self (AntiReach.decision t) in
  let gt := fst (rng_choice rng (range n)) in
  let theta := AntiReach.angle anti (AntiReach.feature n gt) in
  exists X4,
    0 <= gt < n /\
    AntiReach.stim_theta self gt = ret theta /\
    iadd_row
      (iadd_scalar
         (iadd_scalar
            (iadd_scalar
               (Array2 (nf + ns + nd + ne) (n + 1)
                  (repeat (repeat 0%R (Z.to_nat (n + 1)))
                     (Z.to_nat (nf + ns + nd + ne))))
               (Slice 0 nf) (Slice 0 1) 1)
            (Slice nf (nf + ns)) (Slice 0 1) 1)
         (Slice (nf + ns) (nf + ns + nd)) (Slice 0 1) 1)
      (Slice nf (nf + ns)) (Slice 1 (1 + n))
      (cos_tuning (map (AntiReach.feature n) (range n)) theta) = ret X4 /\
    AntiReach.sample_a_trial self t rng item =
    (X5 <- apply_optional it X4 ;;
     Y2 <- apply_optional tt
             (setitem1 (repeat 0 (Z.to_nat (nf + ns + nd + ne)))
                (Slice (nf + ns + nd) (nf + ns + nd + ne)) (gt + 1)) ;;
     ret (Trial X5
            [("ax0", [("fixation", nf); ("stimulus", ns);
                      ("delay", nd); ("decision", ne)]);
             ("ax1", [("fixation", 1); ("stimulus", n)])]
            Y2
            [("ax0", [("fixation", nf); ("stimulus", ns);
                      ("delay", nd); ("decision", ne)])],
          snd (rng_choice rng (range n)))).
Proof.
  intros Hinit Hn Hdt Htot.
  rewrite AntiReach_init_ok in Hinit by lia. injection Hinit as <-.
  intros nf ns nd ne gt theta.
  unfold AntiReach.n_total in Htot. fold nf ns nd ne in Htot.
  unfold AntiReach.steps in nf, ns, nd, ne.
  cbn [AntiReach.dt] in nf, ns, nd, ne.
  assert (Hgt : 0 <= gt < n).
  { apply In_range. apply rng_choice_In. now apply range_nonempty. }
  assert (Hstim : forall self',
             AntiReach._features self' = arange 0 (2 * PI) (2 * PI / IZR n) ->
             AntiReach.anti self' = anti ->
             AntiReach.stim_theta self' gt = ret theta).
  { intros self' Hf Ha. unfold AntiReach.stim_theta. rewrite Hf, Ha.
    rewrite arange_circle by assumption.
    fold (AntiReach.feature n).
    rewrite getitem_map_range by assumption. cbn [bind].
    unfold theta, AntiReach.angle. now destruct anti. }
  destruct (iadd_row_ok
              (iadd_scalar
                 (iadd_scalar
                    (iadd_scalar
                       (Array2 (nf + ns + nd + ne) (n + 1)
                          (repeat (repeat 0%R (Z.to_nat (n + 1)))
                             (Z.to_nat (nf + ns + nd + ne))))
                       (Slice 0 nf) (Slice 0 1) 1)
                    (Slice nf (nf + ns)) (Slice 0 1) 1)
                 (Slice (nf + ns) (nf + ns + nd)) (Slice 0 1) 1)
              (Slice nf (nf + ns)) (Slice 1 (1 + n))
              (cos_tuning (map (AntiReach.feature n) (range n)) theta))
    as [X4 HX4].
  { unfold cos_tuning, len. rewrite !length_map, length_range.
    cbn [shape1 iadd_scalar]. rewrite slice_len_range by lia. lia. }
  exists X4. split; [exact Hgt |]. split; [now apply Hstim |].
  split; [exact HX4 |].
  unfold AntiReach.sample_a_trial.
  cbn [AntiReach.dt AntiReach.num_choice AntiReach._choices
       AntiReach._features AntiReach._feature_periods
       AntiReach.input_transform AntiReach.target_transform].
  rewrite !truediv_ok by assumption. cbn [bind ret].
  fold nf ns nd ne.
  change (sum (values (Dict [("fixation", nf); ("stimulus", ns);
                             ("delay", nd); ("decision", ne)])))
    with (nf + ns + nd + ne).
  rewrite zeros2_ok, zeros1_ok by lia.
  unfold arange_int. rewrite choice_ok by now apply range_nonempty.
  cbn [bind ret]. fold gt. rewrite Hstim by reflexivity. cbn [bind ret].
  rewrite arange_circle by assumption. fold (AntiReach.feature n).
  change (interval_of "fixation" (Dict [("fixation", 1); ("choice", n)]))
    with (ret (Slice 0 1)).
  change (interval_of "choice" (Dict [("fixation", 1); ("choice", n)]))
    with (ret (Slice 1 (1 + n))).
  change (interval_of "fixation"
            (Dict [("fixation", nf); ("stimulus", ns);
                   ("delay", nd); ("decision", ne)]))
    with (ret (Slice 0 nf)).
  change (interval_of "stimulus"
            (Dict [("fixation", nf); ("stimulus", ns);
                   ("delay", nd); ("decision", ne)]))
    with (ret (Slice nf (nf + ns))).
  change (interval_of "delay"
            (Dict [("fixation", nf); ("stimulus", ns);
                   ("delay", nd); ("decision", ne)]))
    with (ret (Slice (nf + ns) (nf + ns + nd))).
  change (interval_of "decision"
            (Dict [("fixation", nf); ("stimulus", ns);
                   ("delay", nd); ("decision", ne)]))
    with (ret (Slice (nf + ns + nd) (nf + ns + nd + ne))).
  cbn [bind ret]. rewrite HX4. reflexivity.
Qed.

End AntiReachTrial.

(** The cells of the input array, for segments of non-negative length. *)
Lemma AntiReach_X_cell (nf ns nd ne n : Z) (theta : R) (X4 : ndarray2) :
  0 <= nf -> 0 <= ns -> 0 <= nd -> 0 <= ne -> 0 < n ->
  iadd_row
    (iadd_scalar
       (iadd_scalar
          (iadd_scalar
             (Array2 (nf + ns + nd + ne) (n + 1)
                (repeat (repeat 0%R (Z.to_nat (n + 1)))
                   (Z.to_nat (nf + ns + nd + ne))))
             (Slice 0 nf) (Slice 0 1) 1)
          (Slice nf (nf + ns)) (Slice 0 1) 1)
       (Slice (nf + ns) (nf + ns + nd)) (Slice 0 1) 1)
    (Slice nf (nf + ns)) (Slice 1 (1 + n))
    (cos_tuning (map (AntiReach.feature n) (range n)) theta) = ret X4 ->
  forall i j,
    0 <= i < nf + ns + nd + ne -> 0 <= j < n + 1 ->
    at2 X4 i j =
    Some (if j =? 0
          then (if i <? nf + ns + nd then 1 else 0)
          else if (nf <=? i) && (i <? nf + ns)
               then cos (AntiReach.feature n (j - 1) - theta)
               else 0)%R.
Proof.
  intros Hf Hs Hd He Hn HX4 i j Hi Hj.
  rewrite (at2_iadd_row _ _ _ _ _ i j HX4), !at2_iadd_scalar.
  rewrite at2_zeros by assumption.
  cbn [shape0 shape1 iadd_scalar option_map start].
  rewrite !selects_range by lia.
  assert (Hlen : len (cos_tuning (map (AntiReach.feature n) (range n)) theta)
                 = n).
  { unfold cos_tuning, len. rewrite !length_map, length_range. lia. }
  rewrite Hlen. f_equal.
  destruct (Z.eqb_spec j 0) as [-> | Hj0].
  - cmp_cases; cbn [andb]; lra.
  - assert (Hnth : nth (if n =? 1 then 0%nat
                        else Z.to_nat (j - adjust (n + 1) 1))
                     (cos_tuning (map (AntiReach.feature n) (range n)) theta)
                     0%R
                   = cos (AntiReach.feature n (j - 1) - theta)).
    { assert (Hidx : (if n =? 1 then 0%nat
                      else Z.to_nat (j - adjust (n + 1) 1))
                     = Z.to_nat (j - 1)).
      { unfold adjust. cmp_cases.
        - f_equal. lia.
        - f_equal. lia. }
      rewrite Hidx. unfold cos_tuning. rewrite map_map.
      rewrite nth_map_range by lia. reflexivity. }
    rewrite Hnth. cmp_cases; cbn [andb]; lra.
Qed.

(** The labels, for segments of non-negative length. *)
Lemma AntiReach_Y_cell (a ne v i : Z) :
  0 <= a -> 0 <= ne -> 0 <= i < a + ne ->
  at1 (setitem1 (repeat 0 (Z.to_nat (a + ne))) (Slice a (a + ne)) v) i =
  Some (if a <=? i then v else 0).
Proof.
  intros Ha He Hi.
  rewrite at1_setitem1, at1_zeros by assumption. cbn [option_map].
  rewrite len_repeat by lia. rewrite selects_range by lia.
  f_equal. cmp_cases; reflexivity.
Qed.

(** ** [Reaching1D]: the trial in closed form *)

Lemma range_succ (n : Z) : 0 <= n -> range (n + 1) = range n ++ [n].
Proof.
  intros Hn. unfold range.
  replace (Z.to_nat (n + 1)) with (S (Z.to_nat n)) by lia.
  rewrite seq_S, map_app. simpl. now rewrite Z2Nat.id.
Qed.

Lemma Reaching1D_init_ok (dt tf tr : R) (n : Z)
    (it : option (ndarray2 -> result ndarray2))
    (tt : option (ndarray1 -> result ndarray1)) :
  0 <= n ->
  Reaching1D.init dt tf tr n it tt =
  ret {| Reaching1D.dt := dt;
         Reaching1D.input_transform := it;
         Reaching1D.target_transform := tt;
         Reaching1D.t_fixation := tf;
         Reaching1D.t_reach := tr;
         Reaching1D.num_choice := n;
         Reaching1D._features := map (Reaching1D.feature n) (range n);
         Reaching1D._feature_periods := Dict [("target", n); ("self", n)];
         Reaching1D.output_features := ["fixation"; "left"; "right"];
         Reaching1D.input_features :=
           map (fstring "target") (range n) ++
           map (fstring "self") (range n) |}.
Proof.
  intros Hn. unfold Reaching1D.init, linspace.
  destruct (Z.ltb_spec (n + 1) 0); [lia |]. cbn [bind ret].
  rewrite range_succ, map_app by assumption. cbn [map].
  rewrite removelast_last.
  replace (n + 1 - 1) with n by lia.
  erewrite map_ext_in; [reflexivity |].
  intros i Hi. apply In_range in Hi. cbv beta.
  destruct (Z.eqb_spec i n); [lia |]. rewrite andb_false_r.
  destruct (Z.ltb_spec 0 n); [| lia]. reflexivity.
Qed.

Lemma len_input_features (n : Z) :
  0 <= n ->
  len (map (fstring "target") (range n) ++ map (fstring "self") (range n))
  = n + n.
Proof.
  intros Hn. unfold len.
  rewrite length_app, !length_map, length_range. lia.
Qed.

Section Reaching1DTrial.

Context {G : Type} `{RandomState G}.

(** With a step size other than zero and a total number of steps that is not
    negative, [sample_a_trial] raises nothing of its own. *)
Lemma Reaching1D_sample_eq (dt tf tr : R) (n : Z)
    (it : option (ndarray2 -> result ndarray2))
    (tt : option (ndarray1 -> result ndarray1))
    (self : Reaching1D.task) (rng : G) (item : Z) :
  Reaching1D.init dt tf tr n it tt = ret self ->
  0 <= n -> dt <> 0%R ->
  0 <= Reaching1D.n_total self ->
  let nf := Reaching1D.steps self tf in
  let nr := Reaching1D.steps self tr in
  let gt := fst (rng_uniform rng 0 (PI * 2)) in
  exists X1,
    iadd_row
      (Array2 (nf + nr) (n + n)
         (repeat (repeat 0%R (Z.to_nat (n + n))) (Z.to_nat (nf + nr))))
      (Slice nf (nf + nr)) (Slice 0 n)
      (cos_tuning (map (Reaching1D.feature n) (range n)) gt) = ret X1 /\
    Reaching1D.sample_a_trial self rng item =
    (X2 <- apply_optional it X1 ;;
     Y3 <- apply_optional tt
             (setitem1
                (setitem1 (repeat 0 (Z.to_nat (nf + nr)))
                   (Slice 0 nf) (cast_int PI))
                (Slice nf (nf + nr)) (cast_int gt)) ;;
     ret (Trial X2
            [("ax0", [("fixation", nf); ("reach", nr)]);
             ("ax1", [("target", n); ("self", n)])]
            Y3
            [("ax0", [("fixation", nf); ("reach", nr)])],
          snd (rng_uniform rng 0 (PI * 2)))).
Proof.
  intros Hinit Hn Hdt Htot.
  rewrite Reaching1D_init_ok in Hinit by lia. injection Hinit as <-.
  intros nf nr gt.
  unfold Reaching1D.n_total in Htot.
  cbn [Reaching1D.t_fixation Reaching1D.t_reach] in Htot.
  fold nf nr in Htot.
  unfold Reaching1D.steps in nf, nr. cbn [Reaching1D.dt] in nf, nr.
  destruct (iadd_row_ok
              (Array2 (nf + nr) (n + n)
                 (repeat (repeat 0%R (Z.to_nat (n + n)))
                    (Z.to_nat (nf + nr))))
              (Slice nf (nf + nr)) (Slice 0 n)
              (cos_tuning (map (Reaching1D.feature n) (range n)) gt))
    as [X1 HX1].
  { unfold cos_tuning, len. rewrite !length_map, length_range.
    cbn [shape1]. rewrite slice_len_range by lia. lia. }
  exists X1. split; [exact HX1 |].
  unfold Reaching1D.sample_a_trial.
  cbn [Reaching1D.dt Reaching1D.num_choice Reaching1D.t_fixation
       Reaching1D.t_reach Reaching1D._features Reaching1D._feature_periods
       Reaching1D.input_features
       Reaching1D.input_transform Reaching1D.target_transform].
  rewrite !truediv_ok by assumption. cbn [bind ret].
  fold nf nr.
  change (sum (values (Dict [("fixation", nf); ("reach", nr)])))
    with (nf + nr).
  rewrite len_input_features by assumption.
  rewrite zeros2_ok, zeros1_ok by lia. cbn [bind ret]. fold gt.
  change (interval_of "target" (Dict [("target", n); ("self", n)]))
    with (ret (Slice 0 n)).
  change (interval_of "fixation" (Dict [("fixation", nf); ("reach", nr)]))
    with (ret (Slice 0 nf)).
  change (interval_of "reach" (Dict [("fixation", nf); ("reach", nr)]))
    with (ret (Slice nf (nf + nr))).
  cbn [bind ret]. rewrite HX1. reflexivity.
Qed.

End Reaching1DTrial.

(** The cells of the input array, for segments of non-negative length. *)
Lemma Reaching1D_X_cell (nf nr n : Z) (gt : R) (X1 : ndarray2) :
  0 <= nf -> 0 <= nr -> 0 <= n ->
  iadd_row
    (Array2 (nf + nr) (n + n)
       (repeat (repeat 0%R (Z.to_nat (n + n))) (Z.to_nat (nf + nr))))
    (Slice nf (nf + nr)) (Slice 0 n)
    (cos_tuning (map (Reaching1D.feature n) (range n)) gt) = ret X1 ->
  forall i j,
    0 <= i < nf + nr -> 0 <= j < n + n ->
    at2 X1 i j =
    Some (if (nf <=? i) && (j <? n)
          then cos (Reaching1D.feature n j - gt)
          else 0)%R.
Proof.
  intros Hf Hr Hn HX1 i j Hi Hj.
  rewrite (at2_iadd_row _ _ _ _ _ i j HX1).
  rewrite at2_zeros by assumption.
  cbn [shape0 shape1 option_map start].
  rewrite !selects_range by lia.
  assert (Hlen : len (cos_tuning (map (Reaching1D.feature n) (range n)) gt)
                 = n).
  { unfold cos_tuning, len. rewrite !length_map, length_range. lia. }
  rewrite Hlen. f_equal.
  destruct (Z.ltb_spec j n) as [Hjn | Hjn].
  - assert (Hidx : (if n =? 1 then 0%nat
                    else Z.to_nat (j - adjust (n + n) 0))
                   = Z.to_nat j).
    { unfold adjust. cmp_cases.
      - f_equal. lia.
      - f_equal. lia. }
    rewrite Hidx. unfold cos_tuning. rewrite map_map.
    rewrite nth_map_range by lia.
    cmp_cases; cbn [andb]; lra.
  - cmp_cases; cbn [andb]; reflexivity.
Qed.

(** The targets, for segments of non-negative length. *)
Lemma Reaching1D_Y_cell (nf nr p g i : Z) :
  0 <= nf -> 0 <= nr -> 0 <= i < nf + nr ->
  at1 (setitem1 (setitem1 (repeat 0 (Z.to_nat (nf + nr))) (Slice 0 nf) p)
         (Slice nf (nf + nr)) g) i =
  Some (if i <? nf then p else g).
Proof.
  intros Hf Hr Hi.
  rewrite !at1_setitem1, at1_zeros by assumption. cbn [option_map].
  rewrite len_setitem1, len_repeat by lia.
  rewrite !selects_range by lia.
  f_equal. cmp_cases; reflexivity.
Qed.

(** ** The integer stored for [np.pi] *)

Lemma PI_lt_4 : (PI < 4)%R.
Proof.
  destruct (PI_ineq 1) as [_ Hup].
  unfold sum_f_R0, tg_alt, PI_tg in Hup. simpl in Hup. lra.
Qed.

Lemma cast_int_PI : cast_int PI = 3.
Proof.
  unfold cast_int, py_int.
  pose proof PI2_3_2 as Hlo. pose proof PI_lt_4 as Hhi.
  destruct (Rle_dec 0 PI) as [_ | Hneg]; [| exfalso; apply Hneg; lra].
  apply Zfloor_eq. split; lra.
Qed.

(** ** Transforms act on the finished trial *)

(** Case analysis on every step of a computation that may raise. *)
Ltac bind_cases :=
  repeat match goal with
    | |- context [bind ?c _] =>
        destruct c; cbn [bind ret apply_optional]; [reflexivity |]
    end.

Section Transforms.

Context {G : Type} `{RandomState G}.

Lemma AntiReach_transforms_last (self : AntiReach.task)
    (it : option (ndarray2 -> result ndarray2))
    (tt : option (ndarray1 -> result ndarray1))
    (t : AntiReach.realized) (rng : G) (item : Z) :
  AntiReach.sample_a_trial (AntiReach.with_transforms self it tt) t rng item =
  (r <- AntiReach.sample_a_trial
          (AntiReach.with_transforms self None None) t rng item ;;
   X5 <- apply_optional it (X (fst r)) ;;
   Y2 <- apply_optional tt (Y (fst r)) ;;
   ret (Trial X5 (X_axes (fst r)) Y2 (Y_axes (fst r)), snd r)).
Proof.
  unfold AntiReach.sample_a_trial, AntiReach.stim_theta.
  cbn [AntiReach.with_transforms AntiReach.dt AntiReach.num_choice
       AntiReach._choices AntiReach._features AntiReach._feature_periods
       AntiReach.anti AntiReach.input_transform AntiReach.target_transform].
  bind_cases. reflexivity.
Qed.

Lemma Reaching1D_transforms_last (self : Reaching1D.task)
    (it : option (ndarray2 -> result ndarray2))
    (tt : option (ndarray1 -> result ndarray1))
    (rng : G) (item : Z) :
  Reaching1D.sample_a_trial (Reaching1D.with_transforms self it tt) rng item =
  (r <- Reaching1D.sample_a_trial
          (Reaching1D.with_transforms self None None) rng item ;;
   X2 <- apply_optional it (X (fst r)) ;;
   Y3 <- apply_optional tt (Y (fst r)) ;;
   ret (Trial X2 (X_axes (fst r)) Y3 (Y_axes (fst r)), snd r)).
Proof.
  unfold Reaching1D.sample_a_trial.
  cbn [Reaching1D.with_transforms Reaching1D.dt Reaching1D.num_choice
       Reaching1D.t_fixation Reaching1D.t_reach Reaching1D._features
       Reaching1D._feature_periods Reaching1D.input_features
       Reaching1D.input_transform Reaching1D.target_transform].
  bind_cases. reflexivity.
Qed.

(** A trial is returned only when the step size is not zero and the total
    number of steps is not negative. *)
Lemma AntiReach_returns_inv (self : AntiReach.task) (t : AntiReach.realized)
    (rng : G) (item : Z) (tr : trial) (rng' : G) :
  AntiReach.sample_a_trial self t rng item = ret (tr, rng') ->
  AntiReach.dt self <> 0%R /\ 0 <= AntiReach.n_total self t.
Proof.
  unfold AntiReach.sample_a_trial. intros Hret.
  assert (Hdt : AntiReach.dt self <> 0%R).
  { intros Hz. unfold truediv in Hret at 1.
    destruct (Req_dec_T (AntiReach.dt self) 0); [discriminate | contradiction]. }
  split; [exact Hdt |].
  rewrite !truediv_ok in Hret by assumption. cbn [bind ret] in Hret.
  unfold zeros2 in Hret.
  change (sum (values (Dict
    [("fixation", py_int (AntiReach.fixation t / AntiReach.dt self));
     ("stimulus", py_int (AntiReach.stimulus t / AntiReach.dt self));
     ("delay", py_int (AntiReach.delay t / AntiReach.dt self));
     ("decision", py_int (AntiReach.decision t / AntiReach.dt self))])))
    with (AntiReach.n_total self t) in Hret.
  destruct (Z.ltb_spec (AntiReach.n_total self t) 0); [discriminate | assumption].
Qed.

Lemma Reaching1D_returns_inv (self : Reaching1D.task)
    (rng : G) (item : Z) (tr : trial) (rng' : G) :
  Reaching1D.sample_a_trial self rng item = ret (tr, rng') ->
  Reaching1D.dt self <> 0%R /\ 0 <= Reaching1D.n_total self.
Proof.
  unfold Reaching1D.sample_a_trial. intros Hret.
  assert (Hdt : Reaching1D.dt self <> 0%R).
  { intros Hz. unfold truediv in Hret at 1.
    destruct (Req_dec_T (Reaching1D.dt self) 0); [discriminate | contradiction]. }
  split; [exact Hdt |].
  rewrite !truediv_ok in Hret by assumption. cbn [bind ret] in Hret.
  unfold zeros2 in Hret.
  change (sum (values (Dict
    [("fixation", py_int (Reaching1D.t_fixation self / Reaching1D.dt self));
     ("reach", py_int (Reaching1D.t_reach self / Reaching1D.dt self))])))
    with (Reaching1D.n_total self) in Hret.
  destruct (Z.ltb_spec (Reaching1D.n_total self) 0); [discriminate | assumption].
Qed.

End Transforms.

(** ** Shapes *)

Lemma Forall_mapi_from {A B : Type} (P : A -> Prop) (Q : B -> Prop)
    (f : Z -> A -> B) (l : list A) :
  (forall i a, P a -> Q (f i a)) ->
  Forall P l -> forall i, Forall Q (mapi_from f i l).
Proof.
  intros Hf Hl. induction Hl as [| a l Ha Hl IH]; intros i; simpl.
  - constructor.
  - constructor; [now apply Hf | apply IH].
Qed.

Lemma well_shaped_zeros (n m : Z) :
  0 <= n -> 0 <= m ->
  well_shaped (Array2 n m (repeat (repeat 0%R (Z.to_nat m)) (Z.to_nat n))).
Proof.
  intros Hn Hm. split; simpl.
  - now apply len_repeat.
  - apply Forall_forall. intros row Hrow.
    apply repeat_spec in Hrow. subst row. now apply len_repeat.
Qed.

Lemma well_shaped_iadd_scalar (A : ndarray2) (s0 s1 : slice) (v : R) :
  well_shaped A -> well_shaped (iadd_scalar A s0 s1 v).
Proof.
  intros [Hrows Hcols]. split; simpl.
  - unfold len, mapi in *. now rewrite length_mapi_from.
  - unfold mapi. apply (Forall_mapi_from (fun row => len row = shape1 A));
      [| exact Hcols].
    intros i row Hrow. destruct (selects s0 (shape0 A) i); [| exact Hrow].
    unfold len, mapi in *. now rewrite length_mapi_from.
Qed.

Lemma well_shaped_iadd_row (A A' : ndarray2) (s0 s1 : slice) (v : list R) :
  iadd_row A s0 s1 v = ret A' ->
  well_shaped A ->
  well_shaped A' /\ shape0 A' = shape0 A /\ shape1 A' = shape1 A.
Proof.
  unfold iadd_row.
  destruct ((len v =? slice_len s1 (shape1 A)) || (len v =? 1));
    [| discriminate].
  intros Heq [Hrows Hcols]. injection Heq as <-.
  split; [| split; reflexivity]. split; simpl.
  - unfold len, mapi in *. now rewrite length_mapi_from.
  - unfold mapi. apply (Forall_mapi_from (fun row => len row = shape1 A));
      [| exact Hcols].
    intros i row Hrow. destruct (selects s0 (shape0 A) i); [| exact Hrow].
    unfold len, mapi in *. now rewrite length_mapi_from.
Qed.

(** ** Angles modulo a full turn *)

Lemma Zfloor_div (a n : Z) :
  0 < n -> Zfloor (IZR a / IZR n) = a / n.
Proof.
  intros Hn.
  assert (Hn' : (0 < IZR n)%R) by (apply IZR_lt; exact Hn).
  pose proof (Z.div_mod a n ltac:(lia)) as Hdm.
  pose proof (Z.mod_pos_bound a n Hn) as [Hlo Hhi].
  assert (Ha : IZR a = (IZR n * IZR (a / n) + IZR (a mod n))%R).
  { rewrite <- mult_IZR, <- plus_IZR. now f_equal. }
  assert (Hr0 : (0 <= IZR (a mod n))%R) by (apply IZR_le; exact Hlo).
  assert (Hr1 : (IZR (a mod n) < IZR n)%R) by (apply IZR_lt; exact Hhi).
  apply Zfloor_eq.
  replace (IZR a / IZR n)%R with (IZR (a / n) + IZR (a mod n) / IZR n)%R
    by (rewrite Ha; field; lra).
  assert (Hq0 : (0 <= IZR (a mod n) / IZR n)%R).
  { apply Rmult_le_pos; [exact Hr0 |]. left. now apply Rinv_0_lt_compat. }
  assert (Hq1 : (IZR (a mod n) / IZR n < 1)%R).
  { apply (Rmult_lt_reg_r (IZR n)); [exact Hn' |].
    unfold Rdiv. rewrite Rmult_assoc, Rinv_l by lra. lra. }
  split; lra.
Qed.

(** Reducing the [a]-th multiple of [2 PI / n] modulo [2 PI]. *)
Lemma np_mod_turn (a n : Z) :
  0 < n ->
  np_mod (IZR a * (2 * PI / IZR n)) (2 * PI) =
  (IZR (a mod n) * (2 * PI / IZR n))%R.
Proof.
  intros Hn. unfold np_mod.
  assert (Hn' : (0 < IZR n)%R) by (apply IZR_lt; exact Hn).
  pose proof PI_RGT_0 as Hpi.
  replace (IZR a * (2 * PI / IZR n) / (2 * PI))%R with (IZR a / IZR n)%R
    by (field; lra).
  rewrite Zfloor_div by assumption.
  rewrite (Z.mod_eq a n) by lia.
  rewrite minus_IZR, mult_IZR. field. lra.
Qed.




(** ** The trials of well-configured tasks *)

Lemma AntiReach_init_fields (dt : R) (anti : bool) (n : Z)
    (it : option (ndarray2 -> result ndarray2))
    (tt : option (ndarray1 -> result ndarray1)) (self : AntiReach.task) :
  AntiReach.init dt anti n it tt = ret self ->
  n <> 0 ->
  AntiReach.dt self = dt /\ AntiReach.anti self = anti /\
  AntiReach.num_choice self = n /\ AntiReach._choices self = range n /\
  AntiReach.input_transform self = it /\
  AntiReach.target_transform self = tt.
Proof.
  intros Hinit Hn. rewrite AntiReach_init_ok in Hinit by assumption.
  injection Hinit as <-. repeat split.
Qed.

Lemma Reaching1D_init_fields (dt tf tr : R) (n : Z)
    (it : option (ndarray2 -> result ndarray2))
    (tt : option (ndarray1 -> result ndarray1)) (self : Reaching1D.task) :
  Reaching1D.init dt tf tr n it tt = ret self ->
  0 <= n ->
  Reaching1D.dt self = dt /\ Reaching1D.t_fixation self = tf /\
  Reaching1D.t_reach self = tr /\ Reaching1D.num_choice self = n /\
  Reaching1D.input_transform self = it /\
  Reaching1D.target_transform self = tt.
Proof.
  intros Hinit Hn. rewrite Reaching1D_init_ok in Hinit by assumption.
  injection Hinit as <-. repeat split.
Qed.

Section TrialSpecs.

Context {G : Type} `{RandomState G}.

(** Everything [AntiReach.sample_a_trial] computes before the transforms,
    for a positive step size and durations that are not negative. *)
Lemma AntiReach_trial_spec (dt : R) (anti : bool) (n : Z)
    (it : option (ndarray2 -> result ndarray2))
    (tt : option (ndarray1 -> result ndarray1))
    (self : AntiReach.task) (t : AntiReach.realized) (rng : G) (item : Z) :
  AntiReach.init dt anti n it tt = ret self ->
  0 < n -> (0 < dt)%R ->
  (0 <= AntiReach.fixation t)%R -> (0 <= AntiReach.stimulus t)%R ->
  (0 <= AntiReach.delay t)%R -> (0 <= AntiReach.decision t)%R ->
  let nf := AntiReach.steps self (AntiReach.fixation t) in
  let ns := AntiReach.steps self (AntiReach.stimulus t) in
  let nd := AntiReach.steps self (AntiReach.delay t) in
  let ne := AntiReach.steps self (AntiReach.decision t) in
  let gt := fst (rng_choice rng (range n)) in
  let theta := AntiReach.angle anti (AntiReach.feature n gt) in
  exists X4 Y1,
    (0 <= nf /\ 0 <= ns /\ 0 <= nd /\ 0 <= ne) /\
    0 <= gt < n /\
    AntiReach.stim_theta self gt = ret theta /\
    AntiReach.sample_a_trial self t rng item =
    (X5 <- apply_optional it X4 ;;
     Y2 <- apply_optional tt Y1 ;;
     ret (Trial X5
            [("ax0", [("fixation", nf); ("stimulus", ns);
                      ("delay", nd); ("decision", ne)]);
             ("ax1", [("fixation", 1); ("stimulus", n)])]
            Y2
            [("ax0", [("fixation", nf); ("stimulus", ns);
                      ("delay", nd); ("decision", ne)])],
          snd (rng_choice rng (range n)))) /\
    (well_shaped X4 /\ shape0 X4 = nf + ns + nd + ne /\ shape1 X4 = n + 1) /\
    (forall i j,
        0 <= i < nf + ns + nd + ne -> 0 <= j < n + 1 ->
        at2 X4 i j =
        Some (if j =? 0
              then (if i <? nf + ns + nd then 1 else 0)
              else if (nf <=? i) && (i <? nf + ns)
                   then cos (AntiReach.feature n (j - 1) - theta)
                   else 0)%R) /\
    len Y1 = nf + ns + nd + ne /\
    (forall i,
        0 <= i < nf + ns + nd + ne ->
        at1 Y1 i = Some (if nf + ns + nd <=? i then gt + 1 else 0)).
Proof.
  intros Hinit Hn Hdt Hf Hs Hd He nf ns nd ne gt theta.
  destruct (AntiReach_init_fields _ _ _ _ _ _ Hinit ltac:(lia))
    as (Hdt' & _).
  assert (Hnf : 0 <= nf)
    by (unfold nf, AntiReach.steps; rewrite Hdt'; now apply steps_nonneg).
  assert (Hns : 0 <= ns)
    by (unfold ns, AntiReach.steps; rewrite Hdt'; now apply steps_nonneg).
  assert (Hnd : 0 <= nd)
    by (unfold nd, AntiReach.steps; rewrite Hdt'; now apply steps_nonneg).
  assert (Hne : 0 <= ne)
    by (unfold ne, AntiReach.steps; rewrite Hdt'; now apply steps_nonneg).
  destruct (AntiReach_sample_eq dt anti n it tt self t rng item Hinit Hn)
    as (X4 & Hgt & Hth & HX4 & Heq).
  { lra. }
  { unfold AntiReach.n_total. fold nf ns nd ne. lia. }
  fold nf ns nd ne gt theta in Hgt, Hth, HX4, Heq.
  exists X4,
    (setitem1 (repeat 0 (Z.to_nat (nf + ns + nd + ne)))
       (Slice (nf + ns + nd) (nf + ns + nd + ne)) (gt + 1)).
  split; [tauto |]. split; [exact Hgt |]. split; [exact Hth |].
  split; [exact Heq |]. split; [| split; [| split]].
  - destruct (well_shaped_iadd_row _ _ _ _ _ HX4) as (Hw & Hs0 & Hs1).
    + do 3 apply well_shaped_iadd_scalar. apply well_shaped_zeros; lia.
    + split; [exact Hw |]. split; [exact Hs0 | exact Hs1].
  - now apply AntiReach_X_cell.
  - rewrite len_setitem1. apply len_repeat. lia.
  - intros i Hi. apply AntiReach_Y_cell; lia.
Qed.

(** Everything [Reaching1D.sample_a_trial] computes before the transforms,
    for a positive step size and durations that are not negative. *)
Lemma Reaching1D_trial_spec (dt tf tr : R) (n : Z)
    (it : option (ndarray2 -> result ndarray2))
    (tt : option (ndarray1 -> result ndarray1))
    (self : Reaching1D.task) (rng : G) (item : Z) :
  Reaching1D.init dt tf tr n it tt = ret self ->
  0 <= n -> (0 < dt)%R -> (0 <= tf)%R -> (0 <= tr)%R ->
  let nf := Reaching1D.steps self tf in
  let nr := Reaching1D.steps self tr in
  let gt := fst (rng_uniform rng 0 (PI * 2)) in
  exists X1 Y2,
    (0 <= nf /\ 0 <= nr) /\
    Reaching1D.sample_a_trial self rng item =
    (X2 <- apply_optional it X1 ;;
     Y3 <- apply_optional tt Y2 ;;
     ret (Trial X2
            [("ax0", [("fixation", nf); ("reach", nr)]);
             ("ax1", [("target", n); ("self", n)])]
            Y3
            [("ax0", [("fixation", nf); ("reach", nr)])],
          snd (rng_uniform rng 0 (PI * 2)))) /\
    (well_shaped X1 /\ shape0 X1 = nf + nr /\ shape1 X1 = n + n) /\
    (forall i j,
        0 <= i < nf + nr -> 0 <= j < n + n ->
        at2 X1 i j =
        Some (if (nf <=? i) && (j <? n)
              then cos (Reaching1D.feature n j - gt)
              else 0)%R) /\
    len Y2 = nf + nr /\
    (forall i,
        0 <= i < nf + nr ->
        at1 Y2 i = Some (if i <? nf then cast_int PI else cast_int gt)).
Proof.
  intros Hinit Hn Hdt Hf Hr nf nr gt.
  destruct (Reaching1D_init_fields _ _ _ _ _ _ _ Hinit Hn)
    as (Hdt' & Htf & Htr & _).
  assert (Hnf : 0 <= nf)
    by (unfold nf, Reaching1D.steps; rewrite Hdt'; now apply steps_nonneg).
  assert (Hnr : 0 <= nr)
    by (unfold nr, Reaching1D.steps; rewrite Hdt'; now apply steps_nonneg).
  destruct (Reaching1D_sample_eq dt tf tr n it tt self rng item Hinit Hn)
    as (X1 & HX1 & Heq).
  { lra. }
  { unfold Reaching1D.n_total. rewrite Htf, Htr. fold nf nr. lia. }
  fold nf nr gt in HX1, Heq.
  exists X1,
    (setitem1
       (setitem1 (repeat 0 (Z.to_nat (nf + nr))) (Slice 0 nf) (cast_int PI))
       (Slice nf (nf + nr)) (cast_int gt)).
  split; [tauto |]. split; [exact Heq |]. split; [| split; [| split]].
  - destruct (well_shaped_iadd_row _ _ _ _ _ HX1) as (Hw & Hs0 & Hs1).
    + apply well_shaped_zeros; lia.
    + split; [exact Hw |]. split; [exact Hs0 | exact Hs1].
  - now apply Reaching1D_X_cell.
  - rewrite !len_setitem1. apply len_repeat. lia.
  - intros i Hi. now apply Reaching1D_Y_cell.
Qed.

End TrialSpecs.

(** ** The examples of the specification *)

Lemma py_int_500_100 : py_int (500 / 100) = 5.
Proof. replace (500 / 100)%R with (IZR 5) by lra. apply py_int_IZR. Qed.

Lemma py_int_0_100 : py_int (0 / 100) = 0.
Proof. replace (0 / 100)%R with (IZR 0) by lra. apply py_int_IZR. Qed.

Section Examples.

Context {G : Type} `{RandomState G}.

(** [AntiReach] with [dt=100], durations 500, 500, 0 and 500, and [n]
    choices. *)
Lemma AntiReach_example_run (anti : bool) (n : Z) (rng : G) (item : Z) :
  0 < n ->
  let gt := fst (rng_choice rng (range n)) in
  let theta := AntiReach.angle anti (AntiReach.feature n gt) in
  exists self X4,
    AntiReach.init 100 anti n None None = ret self /\
    0 <= gt < n /\
    AntiReach.sample_a_trial self example_durations rng item =
    ret (Trial X4
           [("ax0", [("fixation", 5); ("stimulus", 5);
                     ("delay", 0); ("decision", 5)]);
            ("ax1", [("fixation", 1); ("stimulus", n)])]
           (repeat 0 10 ++ repeat (gt + 1) 5)
           [("ax0", [("fixation", 5); ("stimulus", 5);
                     ("delay", 0); ("decision", 5)])],
         snd (rng_choice rng (range n))) /\
    (well_shaped X4 /\ shape0 X4 = 15 /\ shape1 X4 = n + 1) /\
    forall i j,
      0 <= i < 15 -> 0 <= j < n + 1 ->
      at2 X4 i j =
      Some (if j =? 0
            then (if i <? 10 then 1 else 0)
            else if (5 <=? i) && (i <? 10)
                 then cos (AntiReach.feature n (j - 1) - theta)
                 else 0)%R.
Proof.
  intros Hn gt theta.
  destruct (AntiReach.init 100 anti n None None) as [e | self] eqn:Hinit.
  { rewrite AntiReach_init_ok in Hinit by lia. discriminate. }
  assert (Hsteps : forall d, AntiReach.steps self d = py_int (d / 100)).
  { intros d. unfold AntiReach.steps.
    destruct (AntiReach_init_fields _ _ _ _ _ _ Hinit ltac:(lia)) as (-> & _).
    reflexivity. }
  destruct (AntiReach_sample_eq 100 anti n None None self example_durations
              rng item Hinit Hn) as (X4 & Hgt & Hth & HX4 & Heq).
  { lra. }
  { unfold AntiReach.n_total. rewrite !Hsteps. cbn [example_durations
      AntiReach.fixation AntiReach.stimulus AntiReach.delay AntiReach.decision].
    rewrite py_int_500_100, py_int_0_100. lia. }
  rewrite !Hsteps in HX4, Heq.
  cbn [example_durations AntiReach.fixation AntiReach.stimulus
       AntiReach.delay AntiReach.decision] in HX4, Heq.
  rewrite py_int_500_100, py_int_0_100 in HX4, Heq.
  fold gt theta in Hgt, HX4, Heq.
  cbn [apply_optional bind ret] in Heq.
  exists self, X4. split; [reflexivity |]. split; [exact Hgt |].
  split; [exact Heq |]. split.
  - destruct (well_shaped_iadd_row _ _ _ _ _ HX4) as (Hw & Hs0 & Hs1).
    + do 3 apply well_shaped_iadd_scalar. apply well_shaped_zeros; lia.
    + split; [exact Hw |]. split; [exact Hs0 | exact Hs1].
  - intros i j Hi Hj.
    apply (AntiReach_X_cell 5 5 0 5 n theta X4); try lia. exact HX4.
Qed.

(** [Reaching1D] with [dt=100], durations 500 and 500, and two choices. *)
Lemma Reaching1D_example_run (rng : G) (item : Z) :
  let gt := fst (rng_uniform rng 0 (PI * 2)) in
  exists self X1,
    Reaching1D.init 100 500 500 2 None None = ret self /\
    Reaching1D.sample_a_trial self rng item =
    ret (Trial X1
           [("ax0", [("fixation", 5); ("reach", 5)]);
            ("ax1", [("target", 2); ("self", 2)])]
           (repeat 3 5 ++ repeat (cast_int gt) 5)
           [("ax0", [("fixation", 5); ("reach", 5)])],
         snd (rng_uniform rng 0 (PI * 2))) /\
    (well_shaped X1 /\ shape0 X1 = 10 /\ shape1 X1 = 4) /\
    forall i j,
      0 <= i < 10 -> 0 <= j < 4 ->
      at2 X1 i j =
      Some (if (5 <=? i) && (j <? 2)
            then cos (Reaching1D.feature 2 j - gt)
            else 0)%R.
Proof.
  intros gt.
  destruct (Reaching1D.init 100 500 500 2 None None) as [e | self] eqn:Hinit.
  { rewrite Reaching1D_init_ok in Hinit by lia. discriminate. }
  assert (Hsteps : Reaching1D.steps self 500 = 5).
  { unfold Reaching1D.steps.
    destruct (Reaching1D_init_fields _ _ _ _ _ _ _ Hinit ltac:(lia))
      as (-> & _).
    apply py_int_500_100. }
  destruct (Reaching1D_sample_eq 100 500 500 2 None None self rng item Hinit)
    as (X1 & HX1 & Heq).
  { lia. }
  { lra. }
  { unfold Reaching1D.n_total.
    destruct (Reaching1D_init_fields _ _ _ _ _ _ _ Hinit ltac:(lia))
      as (_ & -> & -> & _).
    rewrite Hsteps. lia. }
  rewrite !Hsteps in HX1, Heq. fold gt in HX1, Heq.
  rewrite cast_int_PI in Heq.
  cbn [apply_optional bind ret] in Heq.
  exists self, X1. split; [reflexivity |]. split; [exact Heq |]. split.
  - destruct (well_shaped_iadd_row _ _ _ _ _ HX1) as (Hw & Hs0 & Hs1).
    + apply well_shaped_zeros; lia.
    + split; [exact Hw |]. split; [exact Hs0 | exact Hs1].
  - intros i j Hi Hj.
    apply (Reaching1D_X_cell 5 5 2 gt X1); try lia. exact HX1.
Qed.

End Examples.

(** ** Claims about [AntiReach] *)

Lemma AntiReach_feature_at (dt : R) (anti : bool) (n : Z)
    (it : option (ndarray2 -> result ndarray2))
    (tt : option (ndarray1 -> result ndarray1))
    (self : AntiReach.task) (k : Z) :
  AntiReach.init dt anti n it tt = ret self ->
  0 < n -> 0 <= k < n ->
  getitem (AntiReach._features self) k = ret (AntiReach.feature n k).
Proof.
  intros Hinit Hn Hk. rewrite AntiReach_init_ok in Hinit by lia.
  injection Hinit as <-. cbn [AntiReach._features].
  rewrite arange_circle by assumption.
  fold (AntiReach.feature n). now apply getitem_map_range.
Qed.



Section AntiReachClaims.

Context {G : Type} `{RandomState G}.



(** C5, amended.  In the example configuration the trial has 15 steps and
    [X] has 5 channels; the fixation channel is 1 on the steps [0 .. 9]
    (fixation and stimulus segments, the delay being empty) and 0 on the
    steps [10 .. 14] of the decision segment. *)
Theorem AntiReach_example_trial (rng : G) (item : Z) :
  exists self tr rng',
    AntiReach.init 100 true 4 None None = ret self /\
    AntiReach.sample_a_trial self example_durations rng item = ret (tr, rng') /\
    len (Y tr) = 15 /\
    well_shaped (X tr) /\ shape0 (X tr) = 15 /\ shape1 (X tr) = 5 /\
    (forall i, 0 <= i < 10 -> at2 (X tr) i 0 = Some 1%R) /\
    (forall i, 10 <= i < 15 -> at2 (X tr) i 0 = Some 0%R).
Proof.
  destruct (AntiReach_example_run true 4 rng item ltac:(lia))
    as (self & X4 & Hinit & _ & Hrun & (Hw & Hs0 & Hs1) & Hcell).
  eexists self, _, _. split; [exact Hinit |]. split; [exact Hrun |].
  cbn [X Y]. split; [reflexivity |]. split; [exact Hw |].
  split; [exact Hs0 |]. split; [exact Hs1 |]. split.
  - intros i Hi. rewrite Hcell by lia.
    destruct (Z.ltb_spec i 10); [reflexivity | lia].
  - intros i Hi. rewrite Hcell by lia.
    destruct (Z.ltb_spec i 10); [lia | reflexivity].
Qed.

End AntiReachClaims.

(** C5 as stated fails: at step 10, the first of the decision segment, the
    fixation channel is 0. *)
Lemma AntiReach_fixation_off_in_decision :
  exists self tr rng',
    AntiReach.init 100 true 4 None None = ret self /\
    AntiReach.sample_a_trial self example_durations 0%nat 0 = ret (tr, rng') /\
    at2 (X tr) 10 0 = Some 0%R /\
    ~ (forall i, 0 <= i < 15 -> at2 (X tr) i 0 = Some 1%R).
Proof.
  destruct (AntiReach_example_run true 4 0%nat 0 ltac:(lia))
    as (self & X4 & Hinit & _ & Hrun & _ & Hcell).
  assert (H10 : at2 X4 10 0 = Some 0%R) by (rewrite Hcell by lia; reflexivity).
  eexists self, _, _. split; [exact Hinit |]. split; [exact Hrun |].
  cbn [X]. split; [exact H10 |].
  intros Hall. specialize (Hall 10 ltac:(lia)).
  rewrite H10 in Hall. injection Hall as Hall. lra.
Qed.

(** ** Claims about [Reaching1D] *)

Lemma antireach_example_init :
  AntiReach.init 100 true 4 None None = ret antireach_example.
Proof. rewrite AntiReach_init_ok by lia. reflexivity. Qed.

Lemma reaching_example_init :
  Reaching1D.init 100 500 500 2 None None = ret reaching_example.
Proof. rewrite Reaching1D_init_ok by lia. reflexivity. Qed.

Lemma counter_uniform_quarter :
  fst (rng_uniform 1%nat 0 (PI * 2)) = (PI / 2)%R.
Proof.
  cbn [rng_uniform counter_rng counter_uniform fst].
  change (1 mod 4)%nat with 1%nat. simpl INR. lra.
Qed.

Lemma cast_int_half_PI : cast_int (PI / 2) = 1.
Proof.
  unfold cast_int, py_int.
  pose proof PI2_1 as Hlo. pose proof PI_lt_4 as Hhi.
  destruct (Rle_dec 0 (PI / 2)) as [_ | Hneg]; [| exfalso; apply Hneg; lra].
  apply Zfloor_eq. split; lra.
Qed.

(** C6, evaluated.  [Y] is allocated with [dtype=int], so what is stored is
    truncated: with the angle [PI / 2] drawn, the five fixation steps hold 3
    (not [PI]) and the five reach steps hold 1 (not [PI / 2]). *)
Theorem Reaching1D_labels_truncated :
  exists tr rng',
    Reaching1D.init 100 500 500 2 None None = ret reaching_example /\
    Reaching1D.sample_a_trial reaching_example 1%nat 0 = ret (tr, rng') /\
    fst (rng_uniform 1%nat 0 (PI * 2)) = (PI / 2)%R /\
    Y tr = [3; 3; 3; 3; 3; 1; 1; 1; 1; 1] /\
    IZR 3 <> PI /\ IZR 1 <> (PI / 2)%R.
Proof.
  destruct (Reaching1D_example_run 1%nat 0)
    as (self & X1 & Hinit & Hrun & _).
  rewrite reaching_example_init in Hinit. injection Hinit as <-.
  rewrite counter_uniform_quarter, cast_int_half_PI in Hrun.
  eexists _, _. split; [apply reaching_example_init |].
  split; [exact Hrun |]. split; [apply counter_uniform_quarter |].
  split; [reflexivity |].
  pose proof PI2_3_2. pose proof PI2_1. split; lra.
Qed.

Section Reaching1DClaims.

Context {G : Type} `{RandomState G}.

(** C7.  In a returned trial without input transform, the "self" block (the
    last [num_choice] channels of [X]) is 0 at every step; the "target"
    block (the first [num_choice] channels) is 0 on the steps that the
    time-axis metadata of the trial gives to the fixation segment and holds
    the cosine tuning of the drawn angle on the steps it gives to the reach
    segment. *)
Theorem Reaching1D_self_block_zero (dt tf tr : R) (n : Z)
    (tt : option (ndarray1 -> result ndarray1))
    (self : Reaching1D.task) (rng : G) (item : Z) :
  Reaching1D.init dt tf tr n None tt = ret self ->
  0 <= n -> (0 < dt)%R -> (0 <= tf)%R -> (0 <= tr)%R ->
  let ground_truth := fst (rng_uniform rng 0 (PI * 2)) in
  forall trial0 rng',
    Reaching1D.sample_a_trial self rng item = ret (trial0, rng') ->
    exists dim0 dim1 s_fixation s_reach,
      X_axes trial0 = [("ax0", dim0); ("ax1", dim1)] /\
      interval_of "fixation" (Seq dim0) = ret s_fixation /\
      interval_of "reach" (Seq dim0) = ret s_reach /\
      lengths_sum dim0 = shape0 (X trial0) /\
      shape1 (X trial0) = n + n /\
      (forall i j, 0 <= i < shape0 (X trial0) -> n <= j < n + n ->
         at2 (X trial0) i j = Some 0%R) /\
      (forall i j, selects s_fixation (shape0 (X trial0)) i = true ->
         0 <= j < n ->
         at2 (X trial0) i j = Some 0%R) /\
      (forall i j, selects s_reach (shape0 (X trial0)) i = true ->
         0 <= j < n ->
         at2 (X trial0) i j =
         Some (cos (Reaching1D.feature n j - ground_truth))).
Proof.
  intros Hinit Hn Hdt Hf Hr ground_truth.
  destruct (Reaching1D_trial_spec dt tf tr n None tt self rng item
              Hinit Hn Hdt Hf Hr)
    as (X1 & Y2 & (Hnf & Hnr) & Heq & (_ & Hs0 & Hs1) & Hcell & _).
  fold ground_truth in Heq, Hcell.
  set (nf := Reaching1D.steps self tf) in *.
  set (nr := Reaching1D.steps self tr) in *.
  cbn [apply_optional bind ret] in Heq.
  intros trial0 rng' Hret. rewrite Heq in Hret.
  destruct (apply_optional tt Y2) as [e | Y3]; [discriminate |].
  cbn [bind ret] in Hret. injection Hret as <- _. cbn [X X_axes].
  exists [("fixation", nf); ("reach", nr)], [("target", n); ("self", n)],
    (Slice 0 nf), (Slice nf (nf + nr)).
  split; [reflexivity |]. split; [reflexivity |]. split; [reflexivity |].
  rewrite Hs0.
  split; [unfold lengths_sum; cbn [map snd fold_right]; lia |].
  split; [exact Hs1 |]. split; [| split].
  - intros i j Hi Hj. rewrite Hcell by lia.
    destruct (Z.ltb_spec j n); [lia |]. now rewrite andb_false_r.
  - intros i j Hi Hj. apply selects_true_range in Hi; try lia.
    rewrite Hcell by lia.
    destruct (Z.leb_spec nf i); [lia | reflexivity].
  - intros i j Hi Hj. apply selects_true_range in Hi; try lia.
    rewrite Hcell by lia.
    destruct (Z.leb_spec nf i); [| lia].
    destruct (Z.ltb_spec j n); [reflexivity | lia].
Qed.

End Reaching1DClaims.

(** ** Claims about both tasks *)

Section BothTasks.

Context {G : Type} `{RandomState G}.

(** C8.  The trial a sampler returns (or the exception it raises) depends on
    the generator only through the value of its single draw, and not on the
    trial index: two calls on the same task (configuration and transforms)
    with the same realized durations, from generator states whose next draw
    is the same value, give the same [X], [Y] and metadata, or the same
    exception.  In particular two calls from the same generator state give
    the same outcome, the generator handed back included. *)
Theorem sample_a_trial_deterministic :
  (forall (self : AntiReach.task) (t : AntiReach.realized)
          (rng1 rng2 : G) (item1 item2 : Z),
      fst (rng_choice rng1 (AntiReach._choices self)) =
      fst (rng_choice rng2 (AntiReach._choices self)) ->
      outcome_trial (AntiReach.sample_a_trial self t rng1 item1) =
      outcome_trial (AntiReach.sample_a_trial self t rng2 item2)) /\
  (forall (self : Reaching1D.task) (rng1 rng2 : G) (item1 item2 : Z),
      fst (rng_uniform rng1 0 (PI * 2)) = fst (rng_uniform rng2 0 (PI * 2)) ->
      outcome_trial (Reaching1D.sample_a_trial self rng1 item1) =
      outcome_trial (Reaching1D.sample_a_trial self rng2 item2)) /\
  (forall (self : AntiReach.task) (t : AntiReach.realized)
          (rng : G) (item1 item2 : Z),
      AntiReach.sample_a_trial self t rng item1 =
      AntiReach.sample_a_trial self t rng item2) /\
  (forall (self : Reaching1D.task) (rng : G) (item1 item2 : Z),
      Reaching1D.sample_a_trial self rng item1 =
      Reaching1D.sample_a_trial self rng item2).
Proof.
  split; [| split; [| split; reflexivity]].
  - intros self t rng1 rng2 item1 item2.
    unfold outcome_trial, AntiReach.sample_a_trial, choice.
    destruct (AntiReach._choices self) as [| c cs]; intros Hdraw; cbv zeta.
    + bind_cases. reflexivity.
    + cbn [bind ret]. rewrite Hdraw. bind_cases. reflexivity.
  - intros self rng1 rng2 item1 item2 Hdraw.
    unfold outcome_trial, Reaching1D.sample_a_trial. cbv zeta.
    rewrite Hdraw. bind_cases. reflexivity.
Qed.

(** C9.  A transform that returns its argument gives the outcome of no
    transform; and when the trial without transforms is [tr], an exception
    raised by the input transform on [X tr], or by the target transform on
    [Y tr] once the input transform has returned, is the outcome of the
    call: no trial is returned. *)
Theorem transforms_identity_and_failure :
  (forall (self : AntiReach.task)
          (it : option (ndarray2 -> result ndarray2))
          (tt : option (ndarray1 -> result ndarray1))
          (t : AntiReach.realized) (rng : G) (item : Z),
      AntiReach.sample_a_trial
        (AntiReach.with_transforms self (Some ret) tt) t rng item =
      AntiReach.sample_a_trial
        (AntiReach.with_transforms self None tt) t rng item /\
      AntiReach.sample_a_trial
        (AntiReach.with_transforms self it (Some ret)) t rng item =
      AntiReach.sample_a_trial
        (AntiReach.with_transforms self it None) t rng item /\
      forall tr rng',
        AntiReach.sample_a_trial
          (AntiReach.with_transforms self None None) t rng item
        = ret (tr, rng') ->
        (forall fi e, fi (X tr) = raise e ->
           AntiReach.sample_a_trial
             (AntiReach.with_transforms self (Some fi) tt) t rng item
           = raise e) /\
        (forall ft e X', apply_optional it (X tr) = ret X' ->
           ft (Y tr) = raise e ->
           AntiReach.sample_a_trial
             (AntiReach.with_transforms self it (Some ft)) t rng item
           = raise e)) /\
  (forall (self : Reaching1D.task)
          (it : option (ndarray2 -> result ndarray2))
          (tt : option (ndarray1 -> result ndarray1))
          (rng : G) (item : Z),
      Reaching1D.sample_a_trial
        (Reaching1D.with_transforms self (Some ret) tt) rng item =
      Reaching1D.sample_a_trial
        (Reaching1D.with_transforms self None tt) rng item /\
      Reaching1D.sample_a_trial
        (Reaching1D.with_transforms self it (Some ret)) rng item =
      Reaching1D.sample_a_trial
        (Reaching1D.with_transforms self it None) rng item /\
      forall tr rng',
        Reaching1D.sample_a_trial
          (Reaching1D.with_transforms self None None) rng item
        = ret (tr, rng') ->
        (forall fi e, fi (X tr) = raise e ->
           Reaching1D.sample_a_trial
             (Reaching1D.with_transforms self (Some fi) tt) rng item
           = raise e) /\
        (forall ft e X', apply_optional it (X tr) = ret X' ->
           ft (Y tr) = raise e ->
           Reaching1D.sample_a_trial
             (Reaching1D.with_transforms self it (Some ft)) rng item
           = raise e)).
Proof.
  split.
  - intros self it tt t rng item.
    rewrite (AntiReach_transforms_last self (Some ret) tt).
    rewrite (AntiReach_transforms_last self None tt).
    rewrite (AntiReach_transforms_last self it (Some ret)).
    rewrite (AntiReach_transforms_last self it None).
    split; [reflexivity |]. split.
    + destruct (AntiReach.sample_a_trial
                  (AntiReach.with_transforms self None None) t rng item)
        as [e | r]; [reflexivity |].
      cbn [bind]. destruct (apply_optional it (X (fst r))); reflexivity.
    + intros tr rng' Hret. split.
      * intros fi e Hfi.
        rewrite (AntiReach_transforms_last self (Some fi) tt), Hret.
        cbn [bind ret fst apply_optional]. now rewrite Hfi.
      * intros ft e X' Hit Hft.
        rewrite (AntiReach_transforms_last self it (Some ft)), Hret.
        cbn [bind ret fst]. rewrite Hit.
        cbn [bind ret apply_optional]. now rewrite Hft.
  - intros self it tt rng item.
    rewrite (Reaching1D_transforms_last self (Some ret) tt).
    rewrite (Reaching1D_transforms_last self None tt).
    rewrite (Reaching1D_transforms_last self it (Some ret)).
    rewrite (Reaching1D_transforms_last self it None).
    split; [reflexivity |]. split.
    + destruct (Reaching1D.sample_a_trial
                  (Reaching1D.with_transforms self None None) rng item)
        as [e | r]; [reflexivity |].
      cbn [bind]. destruct (apply_optional it (X (fst r))); reflexivity.
    + intros tr rng' Hret. split.
      * intros fi e Hfi.
        rewrite (Reaching1D_transforms_last self (Some fi) tt), Hret.
        cbn [bind ret fst apply_optional]. now rewrite Hfi.
      * intros ft e X' Hit Hft.
        rewrite (Reaching1D_transforms_last self it (Some ft)), Hret.
        cbn [bind ret fst]. rewrite Hit.
        cbn [bind ret apply_optional]. now rewrite Hft.
Qed.

(** C10.  For a trial returned without transforms, [X] and [Y] carry the
    same time-axis metadata, whose lengths add up to the number of rows of
    [X] and to the length of [Y]; the lengths of the feature-axis metadata
    add up to the number of columns of [X], which is [num_choice + 1] for
    [AntiReach] and [2 * num_choice] for [Reaching1D]. *)
Theorem axes_match_shapes :
  (forall (dt : R) (anti : bool) (n : Z) (self : AntiReach.task)
          (t : AntiReach.realized) (rng : G) (item : Z)
          (tr : trial) (rng' : G),
      AntiReach.init dt anti n None None = ret self ->
      0 < n ->
      AntiReach.sample_a_trial self t rng item = ret (tr, rng') ->
      exists dim0 dim1,
        X_axes tr = [("ax0", dim0); ("ax1", dim1)] /\
        Y_axes tr = [("ax0", dim0)] /\
        lengths_sum dim0 = shape0 (X tr) /\
        lengths_sum dim0 = len (Y tr) /\
        lengths_sum dim1 = shape1 (X tr) /\
        shape1 (X tr) = n + 1 /\
        well_shaped (X tr)) /\
  (forall (dt tf tr : R) (n : Z) (self : Reaching1D.task)
          (rng : G) (item : Z) (trial0 : trial) (rng' : G),
      Reaching1D.init dt tf tr n None None = ret self ->
      0 < n ->
      Reaching1D.sample_a_trial self rng item = ret (trial0, rng') ->
      exists dim0 dim1,
        X_axes trial0 = [("ax0", dim0); ("ax1", dim1)] /\
        Y_axes trial0 = [("ax0", dim0)] /\
        lengths_sum dim0 = shape0 (X trial0) /\
        lengths_sum dim0 = len (Y trial0) /\
        lengths_sum dim1 = shape1 (X trial0) /\
        shape1 (X trial0) = 2 * n /\
        well_shaped (X trial0)).
Proof.
  split.
  - intros dt anti n self t rng item tr rng' Hinit Hn Hret.
    destruct (AntiReach_returns_inv _ _ _ _ _ _ Hret) as [Hdt Htot].
    destruct (AntiReach_init_fields _ _ _ _ _ _ Hinit ltac:(lia))
      as (Hdt' & _).
    rewrite Hdt' in Hdt.
    destruct (AntiReach_sample_eq dt anti n None None self t rng item
                Hinit Hn Hdt Htot) as (X4 & _ & _ & HX4 & Heq).
    rewrite Heq in Hret. cbn [apply_optional bind ret] in Hret.
    injection Hret as <- _. cbn [X Y X_axes Y_axes].
    destruct (well_shaped_iadd_row _ _ _ _ _ HX4) as (Hw & Hs0 & Hs1).
    { do 3 apply well_shaped_iadd_scalar.
      apply well_shaped_zeros; [exact Htot | lia]. }
    cbn [shape0 shape1 iadd_scalar] in Hs0, Hs1.
    eexists _, _. split; [reflexivity |]. split; [reflexivity |].
    rewrite Hs0, Hs1, len_setitem1, len_repeat by exact Htot.
    unfold lengths_sum. cbn [map snd fold_right].
    split; [lia |]. split; [lia |]. split; [lia |]. split; [lia |].
    exact Hw.
  - intros dt tf tr n self rng item trial0 rng' Hinit Hn Hret.
    destruct (Reaching1D_returns_inv _ _ _ _ _ Hret) as [Hdt Htot].
    destruct (Reaching1D_init_fields _ _ _ _ _ _ _ Hinit ltac:(lia))
      as (Hdt' & Htf & Htr & _).
    rewrite Hdt' in Hdt.
    destruct (Reaching1D_sample_eq dt tf tr n None None self rng item
                Hinit ltac:(lia) Hdt Htot) as (X1 & HX1 & Heq).
    unfold Reaching1D.n_total in Htot. rewrite Htf, Htr in Htot.
    rewrite Heq in Hret. cbn [apply_optional bind ret] in Hret.
    injection Hret as <- _. cbn [X Y X_axes Y_axes].
    destruct (well_shaped_iadd_row _ _ _ _ _ HX1) as (Hw & Hs0 & Hs1).
    { apply well_shaped_zeros; [exact Htot | lia]. }
    cbn [shape0 shape1] in Hs0, Hs1.
    eexists _, _. split; [reflexivity |]. split; [reflexivity |].
    rewrite Hs0, Hs1, !len_setitem1, len_repeat by exact Htot.
    unfold lengths_sum. cbn [map snd fold_right].
    split; [lia |]. split; [lia |]. split; [lia |]. split; [lia |].
    exact Hw.
Qed.

End BothTasks.

(** ** The claims at the examples of the specification *)

Lemma antireach_example_total :
  AntiReach.n_total antireach_example example_durations = 15.
Proof.
  unfold AntiReach.n_total, AntiReach.steps.
  cbn [antireach_example example_durations AntiReach.dt AntiReach.fixation
       AntiReach.stimulus AntiReach.delay AntiReach.decision].
  now rewrite py_int_500_100, py_int_0_100.
Qed.

Lemma antireach_example_returns :
  exists X4,
    AntiReach.sample_a_trial antireach_example example_durations 0%nat 0 =
    ret (Trial X4
           [("ax0", [("fixation", 5); ("stimulus", 5);
                     ("delay", 0); ("decision", 5)]);
            ("ax1", [("fixation", 1); ("stimulus", 4)])]
           (repeat 0 10 ++ repeat 1 5)
           [("ax0", [("fixation", 5); ("stimulus", 5);
                     ("delay", 0); ("decision", 5)])],
         1%nat).
Proof.
  destruct (AntiReach_example_run true 4 0%nat 0 ltac:(lia))
    as (self & X4 & Hinit & _ & Hrun & _).
  rewrite antireach_example_init in Hinit. injection Hinit as <-.
  exists X4. exact Hrun.
Qed.

Lemma reaching_example_returns :
  exists X1,
    Reaching1D.sample_a_trial reaching_example 0%nat 0 =
    ret (Trial X1
           [("ax0", [("fixation", 5); ("reach", 5)]);
            ("ax1", [("target", 2); ("self", 2)])]
           (repeat 3 5 ++
            repeat (cast_int (fst (rng_uniform 0%nat 0 (PI * 2)))) 5)
           [("ax0", [("fixation", 5); ("reach", 5)])],
         1%nat).
Proof.
  destruct (Reaching1D_example_run 0%nat 0)
    as (self & X1 & Hinit & Hrun & _).
  rewrite reaching_example_init in Hinit. injection Hinit as <-.
  exists X1. exact Hrun.
Qed.



Lemma Reaching1D_self_block_zero_witness :
  exists trial0 rng',
    Reaching1D.sample_a_trial reaching_example 0%nat 0 = ret (trial0, rng') /\
    shape1 (X trial0) = 2 + 2 /\
    forall i j, 0 <= i < shape0 (X trial0) -> 2 <= j < 2 + 2 ->
      at2 (X trial0) i j = Some 0%R.
Proof.
  destruct reaching_example_returns as (X1 & Hrun).
  destruct (Reaching1D_self_block_zero 100 500 500 2 None reaching_example
              0%nat 0 reaching_example_init ltac:(lia) ltac:(lra)
              ltac:(lra) ltac:(lra) _ _ Hrun)
    as (dim0 & dim1 & sf & sr & _ & _ & _ & _ & Hcols & Hself & _).
  eexists _, _. split; [exact Hrun |]. split; [exact Hcols | exact Hself].
Defined.

Lemma sample_a_trial_deterministic_witness :
  outcome_trial
    (AntiReach.sample_a_trial antireach_example example_durations 0%nat 0) =
  outcome_trial
    (AntiReach.sample_a_trial antireach_example example_durations 4%nat 7) /\
  outcome_trial (Reaching1D.sample_a_trial reaching_example 0%nat 0) =
  outcome_trial (Reaching1D.sample_a_trial reaching_example 4%nat 7).
Proof.
  split.
  - apply (proj1 sample_a_trial_deterministic). reflexivity.
  - apply (proj1 (proj2 sample_a_trial_deterministic)). reflexivity.
Defined.

Lemma transforms_identity_and_failure_witness :
  AntiReach.sample_a_trial
    (AntiReach.with_transforms antireach_example
       (Some (failing_transform (Raised "RuntimeError" "boom"))) None)
    example_durations 0%nat 0
  = raise (Raised "RuntimeError" "boom") /\
  Reaching1D.sample_a_trial
    (Reaching1D.with_transforms reaching_example
       None (Some (failing_transform (Raised "RuntimeError" "boom"))))
    0%nat 0
  = raise (Raised "RuntimeError" "boom").
Proof.
  split.
  - destruct antireach_example_returns as (X4 & Hrun).
    destruct (proj1 transforms_identity_and_failure antireach_example
                None None example_durations 0%nat 0) as (_ & _ & Hfail).
    destruct (Hfail _ _ Hrun) as [Hinput _].
    apply Hinput. reflexivity.
  - destruct reaching_example_returns as (X1 & Hrun).
    destruct (proj2 transforms_identity_and_failure reaching_example
                None None 0%nat 0) as (_ & _ & Hfail).
    destruct (Hfail _ _ Hrun) as [_ Htarget].
    apply (Htarget _ _ X1); reflexivity.
Defined.

Lemma axes_match_shapes_witness :
  (exists tr rng',
     AntiReach.sample_a_trial antireach_example example_durations 0%nat 0
     = ret (tr, rng') /\
     shape1 (X tr) = 5 /\ well_shaped (X tr)) /\
  (exists trial0 rng',
     Reaching1D.sample_a_trial reaching_example 0%nat 0 = ret (trial0, rng') /\
     shape1 (X trial0) = 4 /\ well_shaped (X trial0)).
Proof.
  split.
  - destruct antireach_example_returns as (X4 & Hrun).
    destruct (proj1 axes_match_shapes 100%R true 4 antireach_example
                example_durations 0%nat 0 _ _ antireach_example_init
                ltac:(lia) Hrun)
      as (dim0 & dim1 & _ & _ & _ & _ & _ & Hcols & Hw).
    eexists _, _. split; [exact Hrun |]. split; [exact Hcols | exact Hw].
  - destruct reaching_example_returns as (X1 & Hrun).
    destruct (proj2 axes_match_shapes 100%R 500%R 500%R 2 reaching_example
                0%nat 0 _ _ reaching_example_init ltac:(lia) Hrun)
      as (dim0 & dim1 & _ & _ & _ & _ & _ & Hcols & Hw).
    eexists _, _. split; [exact Hrun |]. split; [exact Hcols | exact Hw].
Defined.

(** * Further properties *)

(** ** [interval_of]: how the intervals of a layout lie *)

Lemma lengths_sum_cons (k : string) (v : Z) (l : list (string * Z)) :
  lengths_sum ((k, v) :: l) = v + lengths_sum l.
Proof. reflexivity. Qed.

Lemma lengths_sum_nonneg (l : list (string * Z)) :
  nonneg_lengths l -> 0 <= lengths_sum l.
Proof.
  induction 1 as [| [k v] l Hv Hl IH]; [reflexivity |].
  rewrite lengths_sum_cons. simpl in Hv. lia.
Qed.

Lemma interval_loop_bounds (name : string) (l : list (string * Z)) :
  nonneg_lengths l ->
  forall acc s,
    interval_loop name acc l = ret s ->
    acc <= start s /\ start s <= stop s /\ stop s <= acc + lengths_sum l.
Proof.
  induction 1 as [| [k v] l Hv Hl IH]; intros acc s Hs; simpl in Hs.
  - discriminate.
  - simpl in Hv. rewrite lengths_sum_cons.
    pose proof (lengths_sum_nonneg l Hl) as Hsum.
    destruct (String.eqb k name).
    + injection Hs as <-. simpl. lia.
    + destruct (IH _ _ Hs) as (H1 & H2 & H3). lia.
Qed.

Lemma interval_loop_shift (name : string) (l : list (string * Z)) :
  forall acc,
    interval_loop name acc l =
    (s <- interval_loop name 0 l ;; ret (shift_slice acc s)).
Proof.
  induction l as [| [k v] l IH]; intros acc; simpl.
  - reflexivity.
  - destruct (String.eqb k name).
    + cbn [bind ret]. unfold shift_slice. simpl. do 2 f_equal; lia.
    + rewrite (IH (acc + v)), (IH v).
      destruct (interval_loop name 0 l) as [e | s]; [reflexivity |].
      cbn [bind ret]. unfold shift_slice. simpl. do 2 f_equal; lia.
Qed.

(** X1.  When no length is negative, the interval of a name lies inside the
    axis: [0 <= start <= stop <= ] the sum of all lengths. *)
Theorem interval_of_within_total (name : string) (total : layout) (s : slice) :
  nonneg_lengths (items total) ->
  interval_of name total = ret s ->
  0 <= start s /\ start s <= stop s /\ stop s <= lengths_sum (items total).
Proof.
  intros Hnn Hs. unfold interval_of in Hs.
  destruct (interval_loop_bounds name _ Hnn 0 s Hs) as (H1 & H2 & H3). lia.
Qed.

Lemma interval_of_within_total_witness :
  0 <= start (Slice 5 10) /\ start (Slice 5 10) <= stop (Slice 5 10) /\
  stop (Slice 5 10) <=
  lengths_sum (items (Dict [("fixation", 5); ("stimulus", 5); ("decision", 5)])).
Proof.
  apply (interval_of_within_total "stimulus"
           (Dict [("fixation", 5); ("stimulus", 5); ("decision", 5)])).
  - repeat constructor; simpl; lia.
  - reflexivity.
Defined.

(** X2.  When no length is negative, the intervals of two different names
    do not overlap: one ends where or before the other starts. *)
Theorem interval_of_disjoint (a b : string) (total : layout) (sa sb : slice) :
  nonneg_lengths (items total) ->
  a <> b ->
  interval_of a total = ret sa ->
  interval_of b total = ret sb ->
  stop sa <= start sb \/ stop sb <= start sa.
Proof.
  intros Hnn Hab. unfold interval_of. generalize 0 as acc.
  induction Hnn as [| [k v] l Hv Hl IH]; intros acc Ha Hb; simpl in Ha, Hb.
  - discriminate.
  - simpl in Hv.
    destruct (String.eqb_spec k a) as [Hka | Hka];
      destruct (String.eqb_spec k b) as [Hkb | Hkb].
    + congruence.
    + injection Ha as <-. simpl. left.
      destruct (interval_loop_bounds b l Hl _ _ Hb) as (H1 & _). exact H1.
    + injection Hb as <-. simpl. right.
      destruct (interval_loop_bounds a l Hl _ _ Ha) as (H1 & _). exact H1.
    + exact (IH _ Ha Hb).
Qed.

Lemma interval_of_disjoint_witness :
  stop (Slice 0 5) <= start (Slice 10 15) \/
  stop (Slice 10 15) <= start (Slice 0 5).
Proof.
  apply (interval_of_disjoint "fixation" "decision"
           (Dict [("fixation", 5); ("stimulus", 5); ("decision", 5)])).
  - repeat constructor; simpl; lia.
  - discriminate.
  - reflexivity.
  - reflexivity.
Defined.

Lemma interval_loop_covers (l : list (string * Z)) :
  forall acc i,
    NoDup (map fst l) ->
    nonneg_lengths l ->
    acc <= i < acc + lengths_sum l ->
    exists name s,
      In name (map fst l) /\
      interval_loop name acc l = ret s /\ start s <= i < stop s.
Proof.
  induction l as [| [k v] l IH]; intros acc i Hnd Hnn Hi.
  - unfold lengths_sum in Hi. simpl in Hi. lia.
  - rewrite lengths_sum_cons in Hi. simpl in Hnd.
    apply NoDup_cons_iff in Hnd. destruct Hnd as [Hk Hnd].
    apply Forall_cons_iff in Hnn. destruct Hnn as [Hv Hnn]. simpl in Hv.
    destruct (Z.lt_ge_cases i (acc + v)) as [Hlt | Hge].
    + exists k, (Slice acc (acc + v)). split; [now left |].
      simpl. rewrite String.eqb_refl. split; [reflexivity | lia].
    + destruct (IH (acc + v) i Hnd Hnn ltac:(lia))
        as (name & s & Hin & Hs & Hr).
      exists name, s. split; [now right |]. split; [| exact Hr].
      simpl. destruct (String.eqb_spec k name) as [-> | _];
        [contradiction | exact Hs].
Qed.

(** X3.  When the names are distinct and no length is negative, every index
    of the axis lies in the interval of some name of the layout. *)
Theorem interval_of_covers (total : layout) (i : Z) :
  NoDup (map fst (items total)) ->
  nonneg_lengths (items total) ->
  0 <= i < lengths_sum (items total) ->
  exists name s,
    In name (map fst (items total)) /\
    interval_of name total = ret s /\ start s <= i < stop s.
Proof.
  intros Hnd Hnn Hi. unfold interval_of.
  apply interval_loop_covers; [assumption | assumption | lia].
Qed.

Lemma interval_of_covers_witness :
  exists name s,
    In name (map fst (items (Dict [("fixation", 5); ("stimulus", 5)]))) /\
    interval_of name (Dict [("fixation", 5); ("stimulus", 5)]) = ret s /\
    start s <= 7 < stop s.
Proof.
  apply (interval_of_covers (Dict [("fixation", 5); ("stimulus", 5)]) 7).
  - simpl. apply NoDup_cons.
    + intros [Heq | []]. discriminate Heq.
    + apply NoDup_cons; [intros [] | apply NoDup_nil].
  - repeat constructor; simpl; lia.
  - unfold lengths_sum. simpl. lia.
Defined.

(** X4.  Entries added after a layout leave the intervals of its names as
    they were. *)
Theorem interval_of_extended (name : string) (total total' : layout)
    (more : list (string * Z)) :
  items total' = items total ++ more ->
  In name (map fst (items total)) ->
  interval_of name total' = interval_of name total.
Proof.
  intros Hext Hin. unfold interval_of. rewrite Hext.
  destruct (first_occurrence name _ Hin) as (pre & v & post & -> & Hpre).
  rewrite <- app_assoc.
  rewrite (interval_loop_app name pre 0 (((name, v) :: post) ++ more))
    by assumption.
  rewrite (interval_loop_app name pre 0 ((name, v) :: post)) by assumption.
  simpl. now rewrite String.eqb_refl.
Qed.

Lemma interval_of_extended_witness :
  interval_of "stimulus"
    (Seq [("fixation", 5); ("stimulus", 5); ("stimulus", 9)]) =
  interval_of "stimulus" (Dict [("fixation", 5); ("stimulus", 5)]).
Proof.
  apply (interval_of_extended "stimulus" _ _ [("stimulus", 9)]).
  - reflexivity.
  - simpl. right. left. reflexivity.
Defined.

(** X5.  Entries put before a layout, none of them called [name], move the
    interval of [name] to the right by the sum of their lengths; a name that
    was not found is still not found. *)
Theorem interval_of_prefixed (name : string) (total total' : layout)
    (pre : list (string * Z)) :
  items total' = pre ++ items total ->
  ~ In name (map fst pre) ->
  interval_of name total' =
  (s <- interval_of name total ;; ret (shift_slice (lengths_sum pre) s)).
Proof.
  intros Hext Hpre. unfold interval_of. rewrite Hext.
  rewrite interval_loop_app by assumption.
  apply interval_loop_shift.
Qed.

Lemma interval_of_prefixed_witness :
  interval_of "reach" (Seq [("fixation", 5); ("delay", 2); ("reach", 5)]) =
  (s <- interval_of "reach" (Dict [("reach", 5)]) ;;
   ret (shift_slice (lengths_sum [("fixation", 5); ("delay", 2)]) s)).
Proof.
  apply (interval_of_prefixed "reach" _ _ [("fixation", 5); ("delay", 2)]).
  - reflexivity.
  - simpl. intros [Hf | [Hd | []]]; discriminate.
Defined.

(** ** Building the tasks *)

Lemma range_nonpositive (n : Z) : n <= 0 -> range n = [].
Proof.
  intros Hn. unfold range. now replace (Z.to_nat n) with 0%nat by lia.
Qed.

Lemma angle_in_turn (n k : Z) :
  0 < n -> 0 <= k < n ->
  (0 <= IZR k * (2 * PI / IZR n) < 2 * PI)%R.
Proof.
  intros Hn Hk.
  assert (Hn' : (0 < IZR n)%R) by (apply IZR_lt; exact Hn).
  assert (Hk0 : (0 <= IZR k)%R) by (apply IZR_le; lia).
  assert (Hk1 : (IZR k < IZR n)%R) by (apply IZR_lt; lia).
  pose proof PI_RGT_0 as Hpi.
  assert (Hstep : (0 < 2 * PI / IZR n)%R).
  { apply Rmult_lt_0_compat; [lra | now apply Rinv_0_lt_compat]. }
  split.
  - apply Rmult_le_pos; lra.
  - replace (2 * PI)%R with (IZR n * (2 * PI / IZR n))%R at 2
      by (field; lra).
    now apply Rmult_lt_compat_r.
Qed.

Section Building.

Context {G : Type} `{RandomState G}.

(** X6.  [AntiReach] cannot be built with [num_choice = 0]: the feature step
    [2 * pi / num_choice] raises [ZeroDivisionError].  A negative
    [num_choice] is accepted by the constructor, but then no call of
    [sample_a_trial] returns a trial. *)
Theorem AntiReach_nonpositive_choices (dt : R) (anti : bool) (n : Z)
    (it : option (ndarray2 -> result ndarray2))
    (tt : option (ndarray1 -> result ndarray1)) :
  (n = 0 ->
   AntiReach.init dt anti n it tt =
   raise (ZeroDivisionError "float division by zero")) /\
  (n < 0 ->
   exists self,
     AntiReach.init dt anti n it tt = ret self /\
     forall (t : AntiReach.realized) (rng : G) (item : Z),
     exists e, AntiReach.sample_a_trial self t rng item = raise e).
Proof.
  split.
  - intros ->. unfold AntiReach.init, truediv.
    destruct (Req_dec_T 0 0) as [_ | Hne]; [reflexivity | now contradiction Hne].
  - intros Hn. eexists. split; [apply AntiReach_init_ok; lia |].
    intros t rng item.
    destruct (AntiReach.sample_a_trial _ t rng item) as [e | [tr rng']] eqn:Hrun;
      [now exists e |].
    exfalso.
    destruct (AntiReach_returns_inv _ _ _ _ _ _ Hrun) as [Hdt Htot].
    unfold AntiReach.sample_a_trial in Hrun.
    cbn [AntiReach.dt AntiReach.num_choice AntiReach._choices] in Hrun, Hdt.
    rewrite !truediv_ok in Hrun by assumption. cbn [bind ret] in Hrun.
    unfold zeros2 in Hrun.
    destruct (_ <? 0); [discriminate |].
    destruct (Z.ltb_spec (n + 1) 0); [discriminate |].
    cbn [orb bind ret] in Hrun.
    unfold zeros1 in Hrun.
    destruct (_ <? 0); [discriminate |]. cbn [bind ret] in Hrun.
    unfold arange_int in Hrun. rewrite range_nonpositive in Hrun by lia.
    discriminate.
Qed.

End Building.

Lemma AntiReach_nonpositive_choices_witness :
  AntiReach.init 100 true 0 None None =
  raise (ZeroDivisionError "float division by zero") /\
  exists self,
    AntiReach.init 100 true (-1) None None = ret self /\
    exists e,
      AntiReach.sample_a_trial self example_durations 0%nat 0 = raise e.
Proof.
  split.
  - apply (AntiReach_nonpositive_choices (G := nat) 100 true 0 None None).
    reflexivity.
  - destruct (AntiReach_nonpositive_choices (G := nat) 100 true (-1) None None)
      as [_ Hneg].
    destruct (Hneg ltac:(lia)) as (self & Hinit & Hall).
    exists self. split; [exact Hinit | apply Hall].
Defined.

(** X7.  An [AntiReach] task built with [num_choice = n > 0] has the
    choices [0 .. n - 1]; for every [k < n] its [k]-th feature angle is
    [k * 2 pi / n], in [[0, 2 pi)]; it names [n + 1] input and [n + 1]
    output features, as many as the lengths of its feature layout add up
    to.  (How many angles [np.arange] yields in all is not stated.) *)
Theorem AntiReach_init_layout (dt : R) (anti : bool) (n : Z)
    (it : option (ndarray2 -> result ndarray2))
    (tt : option (ndarray1 -> result ndarray1)) (self : AntiReach.task) :
  AntiReach.init dt anti n it tt = ret self ->
  0 < n ->
  AntiReach._choices self = range n /\
  len (AntiReach.input_features self) = n + 1 /\
  len (AntiReach.output_features self) = n + 1 /\
  lengths_sum (items (AntiReach._feature_periods self)) = n + 1 /\
  forall k, 0 <= k < n ->
    exists f,
      getitem (AntiReach._features self) k = ret f /\
      f = (IZR k * (2 * PI / IZR n))%R /\
      (0 <= f < 2 * PI)%R.
Proof.
  intros Hinit Hn.
  pose proof (fun k => AntiReach_feature_at dt anti n it tt self k Hinit Hn)
    as Hfeat.
  rewrite AntiReach_init_ok in Hinit by lia. injection Hinit as <-.
  cbn [AntiReach._features AntiReach._choices AntiReach.input_features
       AntiReach.output_features AntiReach._feature_periods].
  split; [reflexivity |].
  split; [unfold len; cbn [List.length];
          rewrite length_map, length_range; lia |].
  split; [unfold len; cbn [List.length];
          rewrite length_map, length_range; lia |].
  split; [unfold lengths_sum; cbn [items map snd fold_right]; lia |].
  intros k Hk. exists (AntiReach.feature n k).
  split.
  - specialize (Hfeat k Hk). cbn [AntiReach._features] in Hfeat.
    exact Hfeat.
  - assert (Hval : AntiReach.feature n k = (IZR k * (2 * PI / IZR n))%R)
      by (unfold AntiReach.feature; ring).
    rewrite Hval. split; [reflexivity | now apply angle_in_turn].
Qed.

Lemma AntiReach_init_layout_witness :
  AntiReach._choices antireach_example = range 4 /\
  len (AntiReach.input_features antireach_example) = 4 + 1 /\
  exists f,
    getitem (AntiReach._features antireach_example) 3 = ret f /\
    f = (IZR 3 * (2 * PI / IZR 4))%R /\ (0 <= f < 2 * PI)%R.
Proof.
  destruct (AntiReach_init_layout 100 true 4 None None antireach_example
              antireach_example_init ltac:(lia))
    as (Hch & Hin & _ & _ & Hfeat).
  split; [exact Hch |]. split; [exact Hin |]. apply Hfeat. lia.
Defined.

(** X8.  [Reaching1D] cannot be built with [num_choice < -1]:
    [np.linspace] refuses a negative number of samples.  Built with
    [num_choice = n >= 0] it has [n] feature angles, the [k]-th being
    [k * 2 pi / n], all in [[0, 2 pi)] (the end point [2 pi] is dropped), and
    it names [2 n] input features. *)
Theorem Reaching1D_init_layout (dt tf tr : R) (n : Z)
    (it : option (ndarray2 -> result ndarray2))
    (tt : option (ndarray1 -> result ndarray1)) :
  (n < -1 ->
   exists msg, Reaching1D.init dt tf tr n it tt = raise (ValueError msg)) /\
  (0 <= n ->
   exists self,
     Reaching1D.init dt tf tr n it tt = ret self /\
     len (Reaching1D._features self) = n /\
     len (Reaching1D.input_features self) = 2 * n /\
     lengths_sum (items (Reaching1D._feature_periods self)) = 2 * n /\
     forall k, 0 <= k < n ->
       exists f,
         getitem (Reaching1D._features self) k = ret f /\
         f = (IZR k * (2 * PI / IZR n))%R /\
         (0 <= f < 2 * PI)%R).
Proof.
  split.
  - intros Hn. unfold Reaching1D.init, linspace.
    destruct (Z.ltb_spec (n + 1) 0); [| lia]. cbn [bind raise]. eauto.
  - intros Hn. eexists. split; [now apply Reaching1D_init_ok |].
    cbn [Reaching1D._features Reaching1D.input_features
         Reaching1D._feature_periods].
    split; [unfold len; rewrite length_map, length_range; lia |].
    split; [rewrite len_input_features by assumption; lia |].
    split; [unfold lengths_sum; cbn [items map snd fold_right]; lia |].
    intros k Hk. exists (Reaching1D.feature n k).
    split; [now apply getitem_map_range |].
    assert (Hval : Reaching1D.feature n k = (IZR k * (2 * PI / IZR n))%R).
    { unfold Reaching1D.feature.
      replace (2 * PI - 0)%R with (2 * PI)%R by ring. ring. }
    rewrite Hval. split; [reflexivity | apply angle_in_turn; lia].
Qed.

Lemma Reaching1D_init_layout_witness :
  (exists msg,
     Reaching1D.init 100 500 500 (-2) None None = raise (ValueError msg)) /\
  exists self,
    Reaching1D.init 100 500 500 2 None None = ret self /\
    len (Reaching1D._features self) = 2 /\
    len (Reaching1D.input_features self) = 2 * 2.
Proof.
  split.
  - apply (proj1 (Reaching1D_init_layout 100 500 500 (-2) None None)). lia.
  - destruct (proj2 (Reaching1D_init_layout 100 500 500 2 None None)
                ltac:(lia)) as (self & Hinit & Hlen & Hin & _).
    exists self. split; [exact Hinit |]. split; [exact Hlen | exact Hin].
Defined.

(** ** Failures, the generator and the transforms *)

(** Case analysis on every step of a computation known to return. *)
Ltac bind_inv H :=
  repeat match type of H with
    | context [bind ?c _] =>
        let E := fresh "E" in
        destruct c eqn:E; cbn [bind ret] in H; [discriminate H |]
    end.

Lemma py_int_neg_2000_100 : py_int (-2000 / 100) = -20.
Proof. replace (-2000 / 100)%R with (IZR (-20)) by lra. apply py_int_IZR. Qed.

Section Failures.

Context {G : Type} `{RandomState G}.


(** X10.  With a step size other than zero and durations that are whole
    multiples of it (so that the quotients are exact also in floating
    point; the multiples are kept below [2^53]), when the step counts add
    up to a negative number both samplers raise the [ValueError] of
    [np.zeros] and return no trial. *)
Theorem sample_a_trial_negative_total :
  (forall (self : AntiReach.task) (t : AntiReach.realized)
          (rng : G) (item : Z) (kf ks kd ke : Z),
      AntiReach.dt self <> 0%R ->
      AntiReach.fixation t = (IZR kf * AntiReach.dt self)%R ->
      AntiReach.stimulus t = (IZR ks * AntiReach.dt self)%R ->
      AntiReach.delay t = (IZR kd * AntiReach.dt self)%R ->
      AntiReach.decision t = (IZR ke * AntiReach.dt self)%R ->
      Z.abs kf <= 2 ^ 53 -> Z.abs ks <= 2 ^ 53 ->
      Z.abs kd <= 2 ^ 53 -> Z.abs ke <= 2 ^ 53 ->
      kf + ks + kd + ke < 0 ->
      AntiReach.sample_a_trial self t rng item =
      raise (ValueError "negative dimensions are not allowed")) /\
  (forall (self : Reaching1D.task) (rng : G) (item : Z) (kf kr : Z),
      Reaching1D.dt self <> 0%R ->
      Reaching1D.t_fixation self = (IZR kf * Reaching1D.dt self)%R ->
      Reaching1D.t_reach self = (IZR kr * Reaching1D.dt self)%R ->
      Z.abs kf <= 2 ^ 53 -> Z.abs kr <= 2 ^ 53 ->
      kf + kr < 0 ->
      Reaching1D.sample_a_trial self rng item =
      raise (ValueError "negative dimensions are not allowed")).
Proof.
  split.
  - intros self t rng item kf ks kd ke Hdt Hf Hs Hd He _ _ _ _ Htot.
    unfold AntiReach.sample_a_trial.
    rewrite !truediv_ok by assumption. cbn [bind ret]. unfold zeros2.
    change (sum (values (Dict
      [("fixation", py_int (AntiReach.fixation t / AntiReach.dt self));
       ("stimulus", py_int (AntiReach.stimulus t / AntiReach.dt self));
       ("delay", py_int (AntiReach.delay t / AntiReach.dt self));
       ("decision", py_int (AntiReach.decision t / AntiReach.dt self))])))
      with (AntiReach.n_total self t).
    assert (Hsum : AntiReach.n_total self t = kf + ks + kd + ke).
    { unfold AntiReach.n_total, AntiReach.steps.
      rewrite Hf, Hs, Hd, He, !py_int_multiple by assumption. reflexivity. }
    rewrite Hsum.
    destruct (Z.ltb_spec (kf + ks + kd + ke) 0); [reflexivity | lia].
  - intros self rng item kf kr Hdt Hf Hr _ _ Htot.
    unfold Reaching1D.sample_a_trial.
    rewrite !truediv_ok by assumption. cbn [bind ret]. unfold zeros2.
    change (sum (values (Dict
      [("fixation", py_int (Reaching1D.t_fixation self / Reaching1D.dt self));
       ("reach", py_int (Reaching1D.t_reach self / Reaching1D.dt self))])))
      with (Reaching1D.n_total self).
    assert (Hsum : Reaching1D.n_total self = kf + kr).
    { unfold Reaching1D.n_total, Reaching1D.steps.
      rewrite Hf, Hr, !py_int_multiple by assumption. reflexivity. }
    rewrite Hsum.
    destruct (Z.ltb_spec (kf + kr) 0); [reflexivity | lia].
Qed.

(** X11.  A call that returns a trial has drawn from the generator exactly
    once: [AntiReach] one [choice] among its choices, [Reaching1D] one
    [uniform] on [[0, 2 pi)]; the generator handed back is the one after
    that draw, whatever the durations and the transforms. *)
Theorem sample_a_trial_draws_once :
  (forall (self : AntiReach.task) (t : AntiReach.realized)
          (rng : G) (item : Z) (tr : trial) (rng' : G),
      AntiReach.sample_a_trial self t rng item = ret (tr, rng') ->
      AntiReach._choices self <> [] /\
      rng' = snd (rng_choice rng (AntiReach._choices self))) /\
  (forall (self : Reaching1D.task) (rng : G) (item : Z)
          (tr : trial) (rng' : G),
      Reaching1D.sample_a_trial self rng item = ret (tr, rng') ->
      rng' = snd (rng_uniform rng 0 (PI * 2))).
Proof.
  split.
  - intros self t rng item tr rng' Hret.
    unfold AntiReach.sample_a_trial in Hret. bind_inv Hret.
    injection Hret as _ Hrng.
    match goal with
    | E : choice rng _ = inr ?p |- _ =>
        unfold choice in E;
        destruct (AntiReach._choices self) as [| c cs] eqn:Hch;
        [discriminate E | injection E as E; subst p]
    end.
    split; [discriminate | now symmetry].
  - intros self rng item tr rng' Hret.
    unfold Reaching1D.sample_a_trial in Hret. bind_inv Hret.
    injection Hret as _ Hrng. now symmetry.
Qed.

(** X12.  The transforms run after the trial is complete and touch nothing
    but the array they are given: when generation raises, so does the call,
    the transforms not being run; when generation gives [tr] and both
    transforms return, the call returns their results with the axis
    metadata and the generator of [tr] unchanged. *)
Theorem transforms_after_generation :
  (forall (self : AntiReach.task)
          (it : option (ndarray2 -> result ndarray2))
          (tt : option (ndarray1 -> result ndarray1))
          (t : AntiReach.realized) (rng : G) (item : Z),
      (forall e,
          AntiReach.sample_a_trial
            (AntiReach.with_transforms self None None) t rng item = raise e ->
          AntiReach.sample_a_trial
            (AntiReach.with_transforms self it tt) t rng item = raise e) /\
      (forall tr rng' X' Y',
          AntiReach.sample_a_trial
            (AntiReach.with_transforms self None None) t rng item
          = ret (tr, rng') ->
          apply_optional it (X tr) = ret X' ->
          apply_optional tt (Y tr) = ret Y' ->
          AntiReach.sample_a_trial
            (AntiReach.with_transforms self it tt) t rng item
          = ret (Trial X' (X_axes tr) Y' (Y_axes tr), rng'))) /\
  (forall (self : Reaching1D.task)
          (it : option (ndarray2 -> result ndarray2))
          (tt : option (ndarray1 -> result ndarray1))
          (rng : G) (item : Z),
      (forall e,
          Reaching1D.sample_a_trial
            (Reaching1D.with_transforms self None None) rng item = raise e ->
          Reaching1D.sample_a_trial
            (Reaching1D.with_transforms self it tt) rng item = raise e) /\
      (forall tr rng' X' Y',
          Reaching1D.sample_a_trial
            (Reaching1D.with_transforms self None None) rng item
          = ret (tr, rng') ->
          apply_optional it (X tr) = ret X' ->
          apply_optional tt (Y tr) = ret Y' ->
          Reaching1D.sample_a_trial
            (Reaching1D.with_transforms self it tt) rng item
          = ret (Trial X' (X_axes tr) Y' (Y_axes tr), rng'))).
Proof.
  split.
  - intros self it tt t rng item. split.
    + intros e Hraw. now rewrite AntiReach_transforms_last, Hraw.
    + intros tr rng' X' Y' Hraw HX HY.
      rewrite AntiReach_transforms_last, Hraw. cbn [bind ret fst snd].
      rewrite HX. cbn [bind ret]. rewrite HY. reflexivity.
  - intros self it tt rng item. split.
    + intros e Hraw. now rewrite Reaching1D_transforms_last, Hraw.
    + intros tr rng' X' Y' Hraw HX HY.
      rewrite Reaching1D_transforms_last, Hraw. cbn [bind ret fst snd].
      rewrite HX. cbn [bind ret]. rewrite HY. reflexivity.
Qed.

End Failures.

Lemma sample_a_trial_negative_total_witness :
  AntiReach.sample_a_trial antireach_example
    {| AntiReach.fixation := -2000; AntiReach.stimulus := 500;
       AntiReach.delay := 0; AntiReach.decision := 500 |} 0%nat 0 =
  raise (ValueError "negative dimensions are not allowed") /\
  exists self,
    Reaching1D.init 100 (-2000) 500 2 None None = ret self /\
    Reaching1D.sample_a_trial self 0%nat 0 =
    raise (ValueError "negative dimensions are not allowed").
Proof.
  split.
  - apply (proj1 sample_a_trial_negative_total antireach_example _ 0%nat 0
             (-20) 5 0 5);
      try (cbn [antireach_example AntiReach.dt AntiReach.fixation
                AntiReach.stimulus AntiReach.delay AntiReach.decision]; lra);
      try (vm_compute; discriminate).
    lia.
  - eexists. split; [apply Reaching1D_init_ok; lia |].
    apply (proj2 sample_a_trial_negative_total _ 0%nat 0 (-20) 5);
      try (cbn [Reaching1D.dt Reaching1D.t_fixation Reaching1D.t_reach]; lra);
      try (vm_compute; discriminate).
    lia.
Defined.

Lemma sample_a_trial_draws_once_witness :
  (exists tr rng',
     AntiReach.sample_a_trial antireach_example example_durations 0%nat 0
     = ret (tr, rng') /\
     rng' = snd (rng_choice 0%nat (AntiReach._choices antireach_example))) /\
  (exists tr rng',
     Reaching1D.sample_a_trial reaching_example 0%nat 0 = ret (tr, rng') /\
     rng' = snd (rng_uniform 0%nat 0 (PI * 2))).
Proof.
  split.
  - destruct antireach_example_returns as (X4 & Hrun).
    eexists _, _. split; [exact Hrun |].
    exact (proj2 (proj1 sample_a_trial_draws_once _ _ _ _ _ _ Hrun)).
  - destruct reaching_example_returns as (X1 & Hrun).
    eexists _, _. split; [exact Hrun |].
    exact (proj2 sample_a_trial_draws_once _ _ _ _ _ Hrun).
Defined.

Lemma transforms_after_generation_witness :
  exists X4 X',
    AntiReach.sample_a_trial
      (AntiReach.with_transforms antireach_example
         (Some (fun A => ret (iadd_scalar A (Slice 0 15) (Slice 0 5) 1)))
         None)
      example_durations 0%nat 0 =
    ret (Trial X'
           [("ax0", [("fixation", 5); ("stimulus", 5);
                     ("delay", 0); ("decision", 5)]);
            ("ax1", [("fixation", 1); ("stimulus", 4)])]
           (repeat 0 10 ++ repeat 1 5)
           [("ax0", [("fixation", 5); ("stimulus", 5);
                     ("delay", 0); ("decision", 5)])],
         1%nat) /\
    X' = iadd_scalar X4 (Slice 0 15) (Slice 0 5) 1.
Proof.
  destruct antireach_example_returns as (X4 & Hrun).
  exists X4. eexists. split; [| reflexivity].
  destruct (proj1 transforms_after_generation antireach_example
              (Some (fun A => ret (iadd_scalar A (Slice 0 15) (Slice 0 5) 1)))
              None example_durations 0%nat 0) as [_ Hok].
  exact (Hok _ _ _ _ Hrun eq_refl eq_refl).
Defined.

(** ** [AntiReach]: the whole input, and the anti task against the pro task *)

Lemma cos_period_Z (x : R) (k : Z) : cos (x + 2 * IZR k * PI) = cos x.
Proof.
  destruct (Z.le_gt_cases 0 k) as [Hk | Hk].
  - rewrite <- (cos_period x (Z.to_nat k)).
    rewrite INR_IZR_INZ, Z2Nat.id by exact Hk. reflexivity.
  - rewrite <- (cos_period (x + 2 * IZR k * PI) (Z.to_nat (- k))).
    rewrite INR_IZR_INZ, Z2Nat.id by lia.
    rewrite opp_IZR. f_equal. ring.
Qed.

Lemma cos_minus_PI (y : R) : cos (y - PI) = (- cos y)%R.
Proof.
  pose proof (neg_cos (y - PI)) as Hneg.
  replace (y - PI + PI)%R with y in Hneg by ring. lra.
Qed.

(** Every response of the anti task is the opposite of the response of the
    pro task to the same feature. *)
Lemma anti_negates_pro (f g : R) :
  cos (f - AntiReach.angle true g) = (- cos (f - AntiReach.angle false g))%R.
Proof.
  unfold AntiReach.angle, np_mod.
  replace (f - (g + PI - IZR (Zfloor ((g + PI) / (2 * PI))) * (2 * PI)))%R
    with (f - g - PI + 2 * IZR (Zfloor ((g + PI) / (2 * PI))) * PI)%R by ring.
  rewrite cos_period_Z. apply cos_minus_PI.
Qed.

Lemma anti_angle_half_turn (n gt : Z) :
  0 < n -> n mod 2 = 0 ->
  AntiReach.angle true (AntiReach.feature n gt) =
  AntiReach.angle false (AntiReach.feature n ((gt + n / 2) mod n)).
Proof.
  intros Hn Heven.
  assert (Hn' : (0 < IZR n)%R) by (apply IZR_lt; exact Hn).
  pose proof PI_RGT_0 as Hpi.
  assert (Hhalf : IZR n = (2 * IZR (n / 2))%R).
  { rewrite <- mult_IZR. f_equal.
    pose proof (Z.div_mod n 2 ltac:(lia)). lia. }
  unfold AntiReach.angle, AntiReach.feature.
  replace (0 + IZR gt * (2 * PI / IZR n) + PI)%R
    with (IZR (gt + n / 2) * (2 * PI / IZR n))%R.
  - rewrite np_mod_turn by assumption. ring.
  - rewrite plus_IZR.
    replace PI with (IZR (n / 2) * (2 * PI / IZR n))%R at 3.
    + ring.
    + rewrite Hhalf. field.
      intros Hz. rewrite Hz in Hhalf. lra.
Qed.

Section AntiReachMore.

Context {G : Type} `{RandomState G}.

(** X13.  In a returned [AntiReach] trial without input transform, with the
    segments read off the time-axis metadata of the trial: the fixation
    channel is 1 on the fixation, stimulus and delay segments and 0 on the
    decision segment; the choice channel [k] is
    [cos (k * 2 pi / n - stim_theta)] on the stimulus segment and 0 on
    every other step. *)
Theorem AntiReach_input_layout (dt : R) (anti : bool) (n : Z)
    (tt : option (ndarray1 -> result ndarray1))
    (self : AntiReach.task) (t : AntiReach.realized) (rng : G) (item : Z)
    (tr : trial) (rng' : G) :
  AntiReach.init dt anti n None tt = ret self ->
  0 < n -> (0 < dt)%R ->
  (0 <= AntiReach.fixation t)%R -> (0 <= AntiReach.stimulus t)%R ->
  (0 <= AntiReach.delay t)%R -> (0 <= AntiReach.decision t)%R ->
  AntiReach.sample_a_trial self t rng item = ret (tr, rng') ->
  let ground_truth := fst (rng_choice rng (AntiReach._choices self)) in
  let steps := shape0 (X tr) in
  exists theta dim0 dim1 s_fixation s_stimulus s_delay s_decision,
    AntiReach.stim_theta self ground_truth = ret theta /\
    X_axes tr = [("ax0", dim0); ("ax1", dim1)] /\
    interval_of "fixation" (Seq dim0) = ret s_fixation /\
    interval_of "stimulus" (Seq dim0) = ret s_stimulus /\
    interval_of "delay" (Seq dim0) = ret s_delay /\
    interval_of "decision" (Seq dim0) = ret s_decision /\
    (forall i,
       selects s_fixation steps i = true \/
       selects s_stimulus steps i = true \/
       selects s_delay steps i = true ->
       at2 (X tr) i 0 = Some 1%R) /\
    (forall i, selects s_decision steps i = true ->
       at2 (X tr) i 0 = Some 0%R) /\
    (forall i k, selects s_stimulus steps i = true -> 0 <= k < n ->
       at2 (X tr) i (1 + k) =
       Some (cos (IZR k * (2 * PI / IZR n) - theta))) /\
    (forall i k, 0 <= i < steps -> selects s_stimulus steps i = false ->
       0 <= k < n ->
       at2 (X tr) i (1 + k) = Some 0%R).
Proof.
  intros Hinit Hn Hdt Hf Hs Hd He Hret ground_truth steps.
  destruct (AntiReach_init_fields _ _ _ _ _ _ Hinit ltac:(lia))
    as (_ & _ & _ & Hch & _).
  destruct (AntiReach_trial_spec dt anti n None tt self t rng item
              Hinit Hn Hdt Hf Hs Hd He)
    as (X4 & Y1 & (Hnf & Hns & Hnd & Hne) & Hgt & Hth & Heq
        & (_ & Hs0 & _) & Hcell & _).
  unfold ground_truth, steps. rewrite Hch.
  rewrite Heq in Hret. cbn [apply_optional bind ret] in Hret.
  destruct (apply_optional tt Y1) as [e | Y2]; [discriminate |].
  cbn [bind ret] in Hret. injection Hret as <- _. cbn [X X_axes].
  set (nf := AntiReach.steps self (AntiReach.fixation t)) in *.
  set (ns := AntiReach.steps self (AntiReach.stimulus t)) in *.
  set (nd := AntiReach.steps self (AntiReach.delay t)) in *.
  set (ne := AntiReach.steps self (AntiReach.decision t)) in *.
  eexists _,
    [("fixation", nf); ("stimulus", ns); ("delay", nd); ("decision", ne)],
    [("fixation", 1); ("stimulus", n)],
    (Slice 0 nf), (Slice nf (nf + ns)), (Slice (nf + ns) (nf + ns + nd)),
    (Slice (nf + ns + nd) (nf + ns + nd + ne)).
  split; [exact Hth |].
  repeat (split; [reflexivity |]).
  rewrite Hs0.
  split; [| split; [| split]].
  - intros i [Hi | [Hi | Hi]]; apply selects_true_range in Hi; try lia;
      rewrite Hcell by lia;
      (destruct (Z.ltb_spec i (nf + ns + nd)); [reflexivity | lia]).
  - intros i Hi. apply selects_true_range in Hi; try lia.
    rewrite Hcell by lia.
    destruct (Z.ltb_spec i (nf + ns + nd)); [lia | reflexivity].
  - intros i k Hi Hk. apply selects_true_range in Hi; try lia.
    rewrite Hcell by lia.
    destruct (Z.eqb_spec (1 + k) 0); [lia |].
    destruct (Z.leb_spec nf i); [| lia].
    destruct (Z.ltb_spec i (nf + ns)); [| lia]. cbn [andb].
    replace (1 + k - 1) with k by lia.
    unfold AntiReach.feature at 1. do 2 f_equal. ring.
  - intros i k Hi Hout Hk. rewrite selects_range in Hout by lia.
    rewrite Hcell by lia.
    destruct (Z.eqb_spec (1 + k) 0); [lia |].
    now rewrite Hout.
Qed.

(** X14.  An anti trial and a pro trial returned by tasks that differ in
    [anti] only, sampled with the same realized durations from the same
    generator state, have the same labels, the same axis metadata, the same
    number of steps, the same fixation channel and the same generator
    afterwards; every stimulus channel of the anti trial is the opposite of
    that channel in the pro trial. *)
Theorem AntiReach_anti_negates_pro (dt : R) (n : Z)
    (anti_task pro_task : AntiReach.task)
    (t : AntiReach.realized) (rng : G) (item : Z)
    (ta tp : trial) (rng_a rng_p : G) :
  AntiReach.init dt true n None None = ret anti_task ->
  AntiReach.init dt false n None None = ret pro_task ->
  0 < n -> (0 < dt)%R ->
  (0 <= AntiReach.fixation t)%R -> (0 <= AntiReach.stimulus t)%R ->
  (0 <= AntiReach.delay t)%R -> (0 <= AntiReach.decision t)%R ->
  AntiReach.sample_a_trial anti_task t rng item = ret (ta, rng_a) ->
  AntiReach.sample_a_trial pro_task t rng item = ret (tp, rng_p) ->
  rng_a = rng_p /\
  Y ta = Y tp /\ X_axes ta = X_axes tp /\ Y_axes ta = Y_axes tp /\
  shape0 (X ta) = shape0 (X tp) /\
  (forall i, 0 <= i < shape0 (X tp) ->
     at2 (X ta) i 0 = at2 (X tp) i 0) /\
  (forall i k, 0 <= i < shape0 (X tp) -> 0 <= k < n ->
     exists x, at2 (X tp) i (1 + k) = Some x /\
               at2 (X ta) i (1 + k) = Some (- x)%R).
Proof.
  intros Ha Hp Hn Hdt Hf Hs Hd He Hreta Hretp.
  destruct (AntiReach_init_fields _ _ _ _ _ _ Ha ltac:(lia)) as (Hdta & _).
  destruct (AntiReach_init_fields _ _ _ _ _ _ Hp ltac:(lia)) as (Hdtp & _).
  assert (Hsa : forall d, AntiReach.steps anti_task d = py_int (d / dt))
    by (intros d; unfold AntiReach.steps; now rewrite Hdta).
  assert (Hsp : forall d, AntiReach.steps pro_task d = py_int (d / dt))
    by (intros d; unfold AntiReach.steps; now rewrite Hdtp).
  pose proof (steps_nonneg _ _ Hf Hdt) as Hnf.
  pose proof (steps_nonneg _ _ Hs Hdt) as Hns.
  pose proof (steps_nonneg _ _ Hd Hdt) as Hnd.
  pose proof (steps_nonneg _ _ He Hdt) as Hne.
  destruct (AntiReach_sample_eq dt true n None None anti_task t rng item
              Ha Hn) as (Xa & Hgt & _ & HXa & Heqa).
  { lra. }
  { unfold AntiReach.n_total. rewrite !Hsa. lia. }
  destruct (AntiReach_sample_eq dt false n None None pro_task t rng item
              Hp Hn) as (Xp & _ & _ & HXp & Heqp).
  { lra. }
  { unfold AntiReach.n_total. rewrite !Hsp. lia. }
  rewrite !Hsa in HXa, Heqa. rewrite !Hsp in HXp, Heqp.
  cbn [apply_optional bind ret] in Heqa, Heqp.
  rewrite Heqa in Hreta. rewrite Heqp in Hretp.
  injection Hreta as <- <-. injection Hretp as <- <-.
  cbn [X Y X_axes Y_axes].
  destruct (shape_of_iadd_row _ _ _ _ _ HXa) as [Hsha _].
  destruct (shape_of_iadd_row _ _ _ _ _ HXp) as [Hshp _].
  cbn [shape0 iadd_scalar] in Hsha, Hshp. rewrite Hsha, Hshp.
  split; [reflexivity |].
  split; [reflexivity |]. split; [reflexivity |]. split; [reflexivity |].
  split; [reflexivity |]. split.
  - intros i Hi.
    rewrite (AntiReach_X_cell _ _ _ _ _ _ _ Hnf Hns Hnd Hne Hn HXa) by lia.
    rewrite (AntiReach_X_cell _ _ _ _ _ _ _ Hnf Hns Hnd Hne Hn HXp) by lia.
    reflexivity.
  - intros i k Hi Hk.
    rewrite (AntiReach_X_cell _ _ _ _ _ _ _ Hnf Hns Hnd Hne Hn HXa) by lia.
    rewrite (AntiReach_X_cell _ _ _ _ _ _ _ Hnf Hns Hnd Hne Hn HXp) by lia.
    destruct (Z.eqb_spec (1 + k) 0); [lia |].
    destruct ((py_int (AntiReach.fixation t / dt) <=? i) &&
              (i <? py_int (AntiReach.fixation t / dt)
                    + py_int (AntiReach.stimulus t / dt))).
    + eexists. split; [reflexivity |]. f_equal. apply anti_negates_pro.
    + exists 0%R. split; [reflexivity |]. f_equal. ring.
Qed.

(** X15.  With an even number of choices, the angle shown in an anti trial
    for [ground_truth] is the angle shown in a pro trial for the choice half
    a turn away, [(ground_truth + num_choice / 2) mod num_choice]. *)
Theorem AntiReach_anti_is_pro_of_opposite (dt : R) (n : Z)
    (anti_task pro_task : AntiReach.task) (ground_truth : Z) :
  AntiReach.init dt true n None None = ret anti_task ->
  AntiReach.init dt false n None None = ret pro_task ->
  0 < n -> n mod 2 = 0 -> 0 <= ground_truth < n ->
  exists theta,
    AntiReach.stim_theta anti_task ground_truth = ret theta /\
    AntiReach.stim_theta pro_task ((ground_truth + n / 2) mod n) = ret theta.
Proof.
  intros Ha Hp Hn Heven Hgt.
  destruct (AntiReach_init_fields _ _ _ _ _ _ Ha ltac:(lia))
    as (_ & Hantia & _).
  destruct (AntiReach_init_fields _ _ _ _ _ _ Hp ltac:(lia))
    as (_ & Hantip & _).
  exists (AntiReach.angle true (AntiReach.feature n ground_truth)).
  unfold AntiReach.stim_theta.
  rewrite (AntiReach_feature_at _ _ _ _ _ _ _ Ha Hn Hgt).
  rewrite (AntiReach_feature_at _ _ _ _ _ _ _ Hp Hn)
    by (apply Z.mod_pos_bound; lia).
  cbn [bind ret]. rewrite Hantia, Hantip. split; [reflexivity |].
  rewrite (anti_angle_half_turn n ground_truth Hn Heven). reflexivity.
Qed.

End AntiReachMore.

Lemma AntiReach_input_layout_witness :
  exists tr rng' dim0 dim1 s_decision,
    AntiReach.sample_a_trial antireach_example example_durations 0%nat 0
    = ret (tr, rng') /\
    X_axes tr = [("ax0", dim0); ("ax1", dim1)] /\
    interval_of "decision" (Seq dim0) = ret s_decision /\
    forall i, selects s_decision (shape0 (X tr)) i = true ->
      at2 (X tr) i 0 = Some 0%R.
Proof.
  destruct antireach_example_returns as (X4 & Hrun).
  destruct (AntiReach_input_layout 100 true 4 None antireach_example
              example_durations 0%nat 0 _ _ antireach_example_init
              ltac:(lia) ltac:(lra) ltac:(simpl; lra) ltac:(simpl; lra)
              ltac:(simpl; lra) ltac:(simpl; lra) Hrun)
    as (theta & dim0 & dim1 & sf & ss & sd & se & _ & HX & _ & _ & _ & He
        & _ & Hzero & _).
  eexists _, _, dim0, dim1, se. split; [exact Hrun |].
  split; [exact HX |]. split; [exact He | exact Hzero].
Defined.

Lemma AntiReach_anti_negates_pro_witness :
  exists pro_task ta tp rng',
    AntiReach.init 100 false 4 None None = ret pro_task /\
    AntiReach.sample_a_trial antireach_example example_durations 0%nat 0
    = ret (ta, rng') /\
    AntiReach.sample_a_trial pro_task example_durations 0%nat 0
    = ret (tp, rng') /\
    Y ta = Y tp.
Proof.
  destruct antireach_example_returns as (X4 & Hruna).
  destruct (AntiReach_example_run (G := nat) false 4 0%nat 0 ltac:(lia))
    as (pro_task & Xp & Hinitp & _ & Hrunp & _).
  destruct (AntiReach_anti_negates_pro 100 4 antireach_example pro_task
              example_durations 0%nat 0 _ _ _ _ antireach_example_init
              Hinitp ltac:(lia) ltac:(lra) ltac:(simpl; lra)
              ltac:(simpl; lra) ltac:(simpl; lra) ltac:(simpl; lra)
              Hruna Hrunp)
    as (Hrng & HY & _).
  eexists pro_task, _, _, _. split; [exact Hinitp |].
  split; [exact Hruna |]. split; [rewrite Hrng; exact Hrunp | exact HY].
Defined.

Lemma AntiReach_anti_is_pro_of_opposite_witness :
  exists pro_task theta,
    AntiReach.init 100 false 4 None None = ret pro_task /\
    AntiReach.stim_theta antireach_example 1 = ret theta /\
    AntiReach.stim_theta pro_task 3 = ret theta.
Proof.
  destruct (AntiReach_anti_is_pro_of_opposite 100 4 antireach_example _ 1
              antireach_example_init
              (AntiReach_init_ok 100 false 4 None None ltac:(lia))
              ltac:(lia) eq_refl ltac:(lia))
    as (theta & Ha & Hp).
  eexists _, theta. split; [apply AntiReach_init_ok; lia |].
  split; [exact Ha | exact Hp].
Defined.

(** ** Slicing a trial by the names of its metadata *)

Lemma PI_lt_7_2 : (PI < 7 / 2)%R.
Proof.
  destruct (PI_ineq 1) as [_ Hup].
  unfold sum_f_R0, tg_alt, PI_tg in Hup. simpl in Hup. lra.
Qed.

Section Metadata.

Context {G : Type} `{RandomState G}.

(** X16.  The axis metadata of an [AntiReach] trial without transforms
    finds the data back: the interval of "decision" on the time axis selects
    exactly the steps labelled [ground_truth + 1], the others being
    labelled 0; the intervals of "stimulus" on the time axis and on the
    feature axis select the block that holds the cosine tuning.  On the
    feature axis that block is called "stimulus" in the metadata and
    "choice" in the layout of the task, so looking up "choice" in the
    metadata raises "Not found". *)
Theorem AntiReach_metadata_round_trip (dt : R) (anti : bool) (n : Z)
    (self : AntiReach.task) (t : AntiReach.realized) (rng : G) (item : Z)
    (tr : trial) (rng' : G) :
  AntiReach.init dt anti n None None = ret self ->
  0 < n -> (0 < dt)%R ->
  (0 <= AntiReach.fixation t)%R -> (0 <= AntiReach.stimulus t)%R ->
  (0 <= AntiReach.delay t)%R -> (0 <= AntiReach.decision t)%R ->
  AntiReach.sample_a_trial self t rng item = ret (tr, rng') ->
  let ground_truth := fst (rng_choice rng (AntiReach._choices self)) in
  exists dim0 dim1 s_decision s_stimulus s_columns theta,
    X_axes tr = [("ax0", dim0); ("ax1", dim1)] /\
    Y_axes tr = [("ax0", dim0)] /\
    interval_of "decision" (Seq dim0) = ret s_decision /\
    interval_of "stimulus" (Seq dim0) = ret s_stimulus /\
    interval_of "stimulus" (Seq dim1) = ret s_columns /\
    interval_of "choice" (AntiReach._feature_periods self) = ret s_columns /\
    interval_of "choice" (Seq dim1) = raise (ValueError "Not found") /\
    AntiReach.stim_theta self ground_truth = ret theta /\
    (forall i, 0 <= i < len (Y tr) ->
       at1 (Y tr) i =
       Some (if selects s_decision (len (Y tr)) i
             then ground_truth + 1 else 0)) /\
    (forall i j,
       selects s_stimulus (shape0 (X tr)) i = true ->
       selects s_columns (shape1 (X tr)) j = true ->
       at2 (X tr) i j =
       Some (cos (IZR (j - start s_columns) * (2 * PI / IZR n) - theta))).
Proof.
  intros Hinit Hn Hdt Hf Hs Hd He Hret ground_truth.
  destruct (AntiReach_init_fields _ _ _ _ _ _ Hinit ltac:(lia))
    as (_ & _ & _ & Hch & _).
  assert (Hfp : AntiReach._feature_periods self
                = Dict [("fixation", 1); ("choice", n)]).
  { pose proof Hinit as Hinit'.
    rewrite AntiReach_init_ok in Hinit' by lia. now injection Hinit' as <-. }
  destruct (AntiReach_trial_spec dt anti n None None self t rng item
              Hinit Hn Hdt Hf Hs Hd He)
    as (X4 & Y1 & (Hnf & Hns & Hnd & Hne) & Hgt & Hth & Heq
        & (_ & Hs0 & Hs1) & Hcell & Hlen & Hlab).
  unfold ground_truth. rewrite Hch, Hfp.
  rewrite Heq in Hret. cbn [apply_optional bind ret] in Hret.
  injection Hret as <- _. cbn [X Y X_axes Y_axes].
  set (nf := AntiReach.steps self (AntiReach.fixation t)) in *.
  set (ns := AntiReach.steps self (AntiReach.stimulus t)) in *.
  set (nd := AntiReach.steps self (AntiReach.delay t)) in *.
  set (ne := AntiReach.steps self (AntiReach.decision t)) in *.
  exists [("fixation", nf); ("stimulus", ns); ("delay", nd); ("decision", ne)],
    [("fixation", 1); ("stimulus", n)],
    (Slice (nf + ns + nd) (nf + ns + nd + ne)),
    (Slice nf (nf + ns)), (Slice 1 (1 + n)),
    (AntiReach.angle anti (AntiReach.feature n (fst (rng_choice rng (range n))))).
  repeat (split; [reflexivity |]).
  split; [exact Hth |]. split.
  - intros i Hi. rewrite Hlen in *. rewrite Hlab by lia.
    rewrite selects_range by lia. f_equal.
    destruct (Z.leb_spec (nf + ns + nd) i);
      destruct (Z.ltb_spec i (nf + ns + nd + ne)); cbn [andb];
      try reflexivity. lia.
  - intros i j Hi Hj. rewrite Hs0 in Hi. rewrite Hs1 in Hj.
    apply selects_true_range in Hi; try lia.
    apply selects_true_range in Hj; try lia.
    rewrite Hcell by lia.
    destruct (Z.eqb_spec j 0); [lia |].
    destruct (Z.leb_spec nf i); [| lia].
    destruct (Z.ltb_spec i (nf + ns)); [| lia]. cbn [andb start].
    unfold AntiReach.feature at 1. do 2 f_equal. ring.
Qed.

(** X17.  In a returned [Reaching1D] trial without target transform every
    target is an integer, [Y] being allocated with [dtype=int]: each entry
    is 3 (what is stored for [np.pi]) or the integer part [k] of the drawn
    angle, with [0 <= k <= 6] and [k <= angle < k + 1]; the drawn angle
    lies in [[0, 2 pi)]. *)
Theorem Reaching1D_integer_targets (dt tf tr : R) (n : Z)
    (it : option (ndarray2 -> result ndarray2))
    (self : Reaching1D.task) (rng : G) (item : Z)
    (trial0 : trial) (rng' : G) :
  Reaching1D.init dt tf tr n it None = ret self ->
  0 <= n -> (0 < dt)%R -> (0 <= tf)%R -> (0 <= tr)%R ->
  Reaching1D.sample_a_trial self rng item = ret (trial0, rng') ->
  let ground_truth := fst (rng_uniform rng 0 (PI * 2)) in
  exists k,
    (0 <= ground_truth < 2 * PI)%R /\
    0 <= k <= 6 /\ (IZR k <= ground_truth < IZR k + 1)%R /\
    forall i, 0 <= i < len (Y trial0) ->
      at1 (Y trial0) i = Some 3 \/ at1 (Y trial0) i = Some k.
Proof.
  intros Hinit Hn Hdt Hf Hr Hret ground_truth.
  destruct (Reaching1D_trial_spec dt tf tr n it None self rng item
              Hinit Hn Hdt Hf Hr)
    as (X1 & Y2 & (Hnf & Hnr) & Heq & _ & _ & Hlen & Hlab).
  fold ground_truth in Heq, Hlab.
  rewrite Heq in Hret. cbn [apply_optional] in Hret.
  destruct (apply_optional it X1) as [e | X2]; [discriminate |].
  cbn [bind ret] in Hret. injection Hret as <- _. cbn [Y].
  pose proof PI_RGT_0 as Hpi. pose proof PI_lt_7_2 as Hpi7.
  assert (Hgt : (0 <= ground_truth < PI * 2)%R)
    by (apply rng_uniform_range; lra).
  pose proof (Zfloor_bound ground_truth) as Hfl.
  assert (Hcast : cast_int ground_truth = Zfloor ground_truth).
  { unfold cast_int, py_int.
    destruct (Rle_dec 0 ground_truth) as [_ | Hneg];
      [reflexivity | exfalso; apply Hneg; lra]. }
  exists (Zfloor ground_truth).
  split; [lra |]. split; [| split; [exact Hfl |]].
  - split.
    + apply Zfloor_lub. simpl. lra.
    + apply Z.lt_succ_r. apply lt_IZR.
      replace (IZR (Z.succ 6)) with 7%R by (simpl; lra). lra.
  - intros i Hi. rewrite Hlen in Hi. rewrite Hlab by lia.
    destruct (Z.ltb_spec i (Reaching1D.steps self tf)).
    + left. now rewrite cast_int_PI.
    + right. now rewrite Hcast.
Qed.

(** X18.  The axis metadata of a [Reaching1D] trial without transforms
    finds the data back, and here the names of the feature axis are those
    of the layout of the task: "fixation" and "reach" select the steps that
    hold 3 and the integer part of the drawn angle; "reach" with "target"
    selects the block of the cosine tuning; "self" selects columns that
    are 0 at every step. *)
Theorem Reaching1D_metadata_round_trip (dt tf tr : R) (n : Z)
    (self : Reaching1D.task) (rng : G) (item : Z)
    (trial0 : trial) (rng' : G) :
  Reaching1D.init dt tf tr n None None = ret self ->
  0 <= n -> (0 < dt)%R -> (0 <= tf)%R -> (0 <= tr)%R ->
  Reaching1D.sample_a_trial self rng item = ret (trial0, rng') ->
  let ground_truth := fst (rng_uniform rng 0 (PI * 2)) in
  exists dim0 dim1 s_fixation s_reach s_target s_self,
    X_axes trial0 = [("ax0", dim0); ("ax1", dim1)] /\
    Y_axes trial0 = [("ax0", dim0)] /\
    interval_of "fixation" (Seq dim0) = ret s_fixation /\
    interval_of "reach" (Seq dim0) = ret s_reach /\
    interval_of "target" (Seq dim1) = ret s_target /\
    interval_of "target" (Reaching1D._feature_periods self) = ret s_target /\
    interval_of "self" (Seq dim1) = ret s_self /\
    interval_of "self" (Reaching1D._feature_periods self) = ret s_self /\
    (forall i, selects s_fixation (len (Y trial0)) i = true ->
       at1 (Y trial0) i = Some 3) /\
    (forall i, selects s_reach (len (Y trial0)) i = true ->
       at1 (Y trial0) i = Some (cast_int ground_truth)) /\
    (forall i j,
       selects s_reach (shape0 (X trial0)) i = true ->
       selects s_target (shape1 (X trial0)) j = true ->
       at2 (X trial0) i j =
       Some (cos (IZR (j - start s_target) * (2 * PI / IZR n)
                  - ground_truth))) /\
    (forall i j,
       0 <= i < shape0 (X trial0) ->
       selects s_self (shape1 (X trial0)) j = true ->
       at2 (X trial0) i j = Some 0%R).
Proof.
  intros Hinit Hn Hdt Hf Hr Hret ground_truth.
  assert (Hfp : Reaching1D._feature_periods self
                = Dict [("target", n); ("self", n)]).
  { pose proof Hinit as Hinit'.
    rewrite Reaching1D_init_ok in Hinit' by lia. now injection Hinit' as <-. }
  destruct (Reaching1D_trial_spec dt tf tr n None None self rng item
              Hinit Hn Hdt Hf Hr)
    as (X1 & Y2 & (Hnf & Hnr) & Heq & (_ & Hs0 & Hs1) & Hcell & Hlen & Hlab).
  fold ground_truth in Heq, Hcell, Hlab. rewrite Hfp.
  rewrite Heq in Hret. cbn [apply_optional bind ret] in Hret.
  injection Hret as <- _. cbn [X Y X_axes Y_axes].
  set (nf := Reaching1D.steps self tf) in *.
  set (nr := Reaching1D.steps self tr) in *.
  exists [("fixation", nf); ("reach", nr)], [("target", n); ("self", n)],
    (Slice 0 nf), (Slice nf (nf + nr)), (Slice 0 n), (Slice n (n + n)).
  repeat (split; [reflexivity |]).
  rewrite Hlen, Hs0, Hs1.
  split; [| split; [| split]].
  - intros i Hi. apply selects_true_range in Hi; try lia.
    rewrite Hlab by lia.
    destruct (Z.ltb_spec i nf); [| lia]. now rewrite cast_int_PI.
  - intros i Hi. apply selects_true_range in Hi; try lia.
    rewrite Hlab by lia.
    destruct (Z.ltb_spec i nf); [lia | reflexivity].
  - intros i j Hi Hj.
    apply selects_true_range in Hi; try lia.
    apply selects_true_range in Hj; try lia.
    rewrite Hcell by lia.
    destruct (Z.leb_spec nf i); [| lia].
    destruct (Z.ltb_spec j n); [| lia]. cbn [andb start].
    unfold Reaching1D.feature. do 2 f_equal.
    replace (j - 0) with j by lia. field.
    apply not_0_IZR. lia.
  - intros i j Hi Hj.
    apply selects_true_range in Hj; try lia.
    rewrite Hcell by lia.
    destruct (Z.ltb_spec j n); [lia |]. now rewrite andb_false_r.
Qed.

End Metadata.

Lemma AntiReach_metadata_round_trip_witness :
  exists tr rng' dim0 dim1 s_decision,
    AntiReach.sample_a_trial antireach_example example_durations 0%nat 0
    = ret (tr, rng') /\
    X_axes tr = [("ax0", dim0); ("ax1", dim1)] /\
    interval_of "decision" (Seq dim0) = ret s_decision /\
    interval_of "choice" (Seq dim1) = raise (ValueError "Not found") /\
    forall i, 0 <= i < len (Y tr) ->
      at1 (Y tr) i =
      Some (if selects s_decision (len (Y tr)) i
            then fst (rng_choice 0%nat (AntiReach._choices antireach_example))
                 + 1
            else 0).
Proof.
  destruct antireach_example_returns as (X4 & Hrun).
  destruct (AntiReach_metadata_round_trip 100 true 4 antireach_example
              example_durations 0%nat 0 _ _ antireach_example_init
              ltac:(lia) ltac:(lra) ltac:(simpl; lra) ltac:(simpl; lra)
              ltac:(simpl; lra) ltac:(simpl; lra) Hrun)
    as (dim0 & dim1 & sd & ss & sc & theta & HX & _ & Hd & _ & _ & _ & Hc
        & _ & HY & _).
  eexists _, _, dim0, dim1, sd. split; [exact Hrun |].
  split; [exact HX |]. split; [exact Hd |]. split; [exact Hc | exact HY].
Defined.

Lemma Reaching1D_integer_targets_witness :
  exists trial0 rng' k,
    Reaching1D.sample_a_trial reaching_example 0%nat 0 = ret (trial0, rng') /\
    0 <= k <= 6 /\
    (at1 (Y trial0) 2 = Some 3 \/ at1 (Y trial0) 2 = Some k).
Proof.
  destruct reaching_example_returns as (X1 & Hrun).
  destruct (Reaching1D_integer_targets 100 500 500 2 None reaching_example
              0%nat 0 _ _ reaching_example_init ltac:(lia) ltac:(lra)
              ltac:(lra) ltac:(lra) Hrun)
    as (k & _ & Hk & _ & Hall).
  eexists _, _, k. split; [exact Hrun |]. split; [exact Hk |].
  apply Hall. cbn [Y]. unfold len. rewrite length_app, !repeat_length. lia.
Defined.

Lemma Reaching1D_metadata_round_trip_witness :
  exists trial0 rng' dim0 dim1 s_self,
    Reaching1D.sample_a_trial reaching_example 0%nat 0 = ret (trial0, rng') /\
    X_axes trial0 = [("ax0", dim0); ("ax1", dim1)] /\
    interval_of "self" (Seq dim1) = ret s_self /\
    forall i j,
      0 <= i < shape0 (X trial0) ->
      selects s_self (shape1 (X trial0)) j = true ->
      at2 (X trial0) i j = Some 0%R.
Proof.
  destruct reaching_example_returns as (X1 & Hrun).
  destruct (Reaching1D_metadata_round_trip 100 500 500 2 reaching_example
              0%nat 0 _ _ reaching_example_init ltac:(lia) ltac:(lra)
              ltac:(lra) ltac:(lra) Hrun)
    as (dim0 & dim1 & sf & sr & st & ss & HX & _ & _ & _ & _ & _ & Hs & _
        & _ & _ & _ & Hzero).
  eexists _, _, dim0, dim1, ss. split; [exact Hrun |].
  split; [exact HX |]. split; [exact Hs | exact Hzero].
Defined.
